(** * snow_17.py: the snow-17 / Liston energy-balance evaluator

    A shallow embedding of [src/snow_17.py].  The program is a chain of
    element-wise numpy operations over 2-D grids.  Four layers:

    - an arithmetic interface [Arith] listing the scalar operations the
      program applies to the cells; the code is embedded once, over any
      such arithmetic, so that what is proved about the structure of the
      computation (branching, shapes, errors) holds whatever the
      arithmetic is, numpy's float64 included;
    - a model of the numpy operations the program uses: 2-D arrays with
      their shape, broadcasting of element-wise binary operations,
      [np.zeros], [np.where], indexing and assignment through index arrays;
    - the instance of the interface at the real numbers, which reads the
      formulas in exact arithmetic.  The numeric properties are proved in
      that reading: rounding, overflow and NaN of float64 are not part of
      it, and every statement says so;
    - the instance of the interface at IEEE 754 binary64, the numbers numpy
      computes with, on which the program runs as it is.  It shows where
      the exact reading and the computed values part: an identity of exact
      arithmetic that relies on a cancellation holds of the computed values
      only up to rounding. *)

From Stdlib Require Import Reals Lra Lia ZArith QArith Qreals.
From Stdlib Require Import List String DecimalString Bool PeanoNat.
From Stdlib Require DecimalPos DecimalZ.
From Stdlib Require Uint63 PrimFloat SpecFloat FloatOps FloatAxioms.
Import ListNotations.

Set Implicit Arguments.

(** ** Python exceptions and the error monad *)

(** The exceptions the program can raise: [AttributeError] when
    [gdal.Open] returns [None] and [.ReadAsArray()] is called on it,
    [ValueError] when numpy cannot broadcast two operands together,
    [IndexError] when an index array reaches outside an array. *)
Inductive exn : Set :=
| AttributeError
| ValueError
| IndexError.

Inductive result (A : Type) : Type :=
| Ok (a : A)
| Err (e : exn).

Arguments Ok {A} a.
Arguments Err {A} e.

Definition bind {A B : Type} (m : result A) (k : A -> result B) : result B :=
  match m with
  | Ok a => k a
  | Err e => Err e
  end.

Definition fmap {A B : Type} (f : A -> B) (m : result A) : result B :=
  bind m (fun a => Ok (f a)).

Declare Scope py_scope.
Delimit Scope py_scope with py.
Notation "x <- m ;; k" := (bind m (fun x => k))
  (at level 61, m at next level, right associativity) : py_scope.

(** ** The arithmetic of array elements *)

(** Decimal literals of the source are kept as exact rationals and injected
    by [lit]; [fpow x q] is [x ** q] for a literal exponent [q]; [fltb] is
    [<] (and [x > y] is [y < x]). *)
Class Arith (T : Type) : Type := {
  lit : Q -> T;
  fadd : T -> T -> T;
  fsub : T -> T -> T;
  fmul : T -> T -> T;
  fdiv : T -> T -> T;
  fpow : T -> Q -> T;
  fexp : T -> T;
  flog : T -> T;
  fabs : T -> T;
  fltb : T -> T -> bool
}.

Arguments lit {T _} _%_Q.
Arguments fpow {T _} _ _%_Q.

Definition fgtb {T} `{Arith T} (x y : T) : bool := fltb y x.

(** [<] is asymmetric: the one law of the comparison that the branch
    structure of the stability correction relies on.  It holds of IEEE-754
    comparison (NaN compares false) and of the order of the reals. *)
Class ArithLaws {T : Type} (A : Arith T) : Prop := {
  fltb_asym : forall x y : T, fltb x y = true -> fltb y x = false
}.

Declare Scope fl_scope.
Delimit Scope fl_scope with fl.
Notation "x + y" := (fadd x y) : fl_scope.
Notation "x - y" := (fsub x y) : fl_scope.
Notation "x * y" := (fmul x y) : fl_scope.
Notation "x / y" := (fdiv x y) : fl_scope.
Notation "x ** q" := (fpow x q) (at level 30, right associativity) : fl_scope.
Notation "x <? y" := (fltb x y) : fl_scope.
Notation "x >? y" := (fgtb x y) : fl_scope.

(** ** numpy arrays *)

(** A 2-D array: its shape and its cells ([cell g i j] is read only for
    [i < nrows g] and [j < ncols g]). *)
Record grid (T : Type) : Type := mkGrid {
  nrows : nat;
  ncols : nat;
  cell : nat -> nat -> T
}.

Definition shape {T} (g : grid T) : nat * nat := (nrows g, ncols g).

(** The array filled with one value ([np.zeros] is [np_full] at zero). *)
Definition np_full {T} (sh : nat * nat) (v : T) : grid T :=
  mkGrid (fst sh) (snd sh) (fun _ _ => v).

(** The rows of an array as lists, for display. *)
Definition to_lists {T} (g : grid T) : list (list T) :=
  map (fun i => map (fun j => cell g i j) (seq 0 (ncols g))) (seq 0 (nrows g)).

(** An array expression: evaluating it yields an array or raises. *)
Definition rgrid (T : Type) : Type := result (grid T).
Definition arr {T} (g : grid T) : rgrid T := Ok g.
Coercion arr : grid >-> rgrid.

(** A 1-D array, as produced by indexing with an index array. *)
Definition rvec (T : Type) : Type := result (list T).

Section Numpy.
Context {T : Type} `{Arith T}.

(** *** Broadcasting *)

(** Two dimensions are compatible when they are equal or one of them is 1. *)
Definition bdim (m n : nat) : option nat :=
  if m =? n then Some m
  else if m =? 1 then Some n
  else if n =? 1 then Some m
  else None.

(** A dimension of 1 is stretched: every index reads its only cell. *)
Definition bidx (m i : nat) : nat := if m =? 1 then 0 else i.

Definition broadcast2 (f : T -> T -> T) (a b : grid T) : rgrid T :=
  match bdim (nrows a) (nrows b), bdim (ncols a) (ncols b) with
  | Some r, Some c =>
      Ok (mkGrid r c (fun i j =>
            f (cell a (bidx (nrows a) i) (bidx (ncols a) j))
              (cell b (bidx (nrows b) i) (bidx (ncols b) j))))
  | _, _ => Err ValueError
  end.

Definition gmap (f : T -> T) (a : grid T) : grid T :=
  mkGrid (nrows a) (ncols a) (fun i j => f (cell a i j)).

(** Element-wise operations on array expressions: array with array
    (operands evaluated left to right), scalar with array, array with
    scalar, and unary. *)
Definition np_bin (f : T -> T -> T) (x y : rgrid T) : rgrid T :=
  (a <- x ;; b <- y ;; broadcast2 f a b)%py.
Definition np_sl (f : T -> T -> T) (s : T) (y : rgrid T) : rgrid T :=
  fmap (gmap (f s)) y.
Definition np_sr (f : T -> T -> T) (x : rgrid T) (s : T) : rgrid T :=
  fmap (gmap (fun v => f v s)) x.
Definition np_un (f : T -> T) (x : rgrid T) : rgrid T :=
  fmap (gmap f) x.

Definition np_exp : rgrid T -> rgrid T := np_un fexp.
Definition np_pow (x : rgrid T) (q : Q) : rgrid T := np_un (fun v => fpow v q) x.

Definition np_zeros (sh : nat * nat) : grid T := np_full sh (lit 0).

(** *** Index arrays *)

(** [np.where(cond)]: the indices of the cells that satisfy the
    condition, in row-major order. *)
Definition np_where (p : T -> bool) (g : grid T) : list (nat * nat) :=
  filter (fun ij => p (cell g (fst ij) (snd ij)))
         (list_prod (seq 0 (nrows g)) (seq 0 (ncols g))).

Definition in_bounds (g : grid T) (ij : nat * nat) : bool :=
  (fst ij <? nrows g)%nat && (snd ij <? ncols g)%nat.

(** [g[idx]]: the 1-D array of the selected cells. *)
Fixpoint take (g : grid T) (idx : list (nat * nat)) : rvec T :=
  match idx with
  | [] => Ok []
  | ij :: idx' =>
      if in_bounds g ij
      then (vs <- take g idx' ;; Ok (cell g (fst ij) (snd ij) :: vs))%py
      else Err IndexError
  end.

Definition upd (f : nat -> nat -> T) (ij : nat * nat) (v : T) : nat -> nat -> T :=
  fun i j => if ((i =? fst ij) && (j =? snd ij))%nat then v else f i j.

Fixpoint assign (f : nat -> nat -> T) (idx : list (nat * nat)) (vals : list T)
  : nat -> nat -> T :=
  match idx, vals with
  | ij :: idx', v :: vals' => assign (upd f ij v) idx' vals'
  | _, _ => f
  end.

(** [g[idx] = vals] with a 1-D array of values, one per index. *)
Definition put (g : grid T) (idx : list (nat * nat)) (vals : list T) : rgrid T :=
  if negb (forallb (in_bounds g) idx) then Err IndexError
  else if negb (List.length idx =? List.length vals)%nat then Err ValueError
  else Ok (mkGrid (nrows g) (ncols g) (assign (cell g) idx vals)).

(** *** Element-wise operations on 1-D arrays *)

Fixpoint zip_with (f : T -> T -> T) (u v : list T) : list T :=
  match u, v with
  | x :: u', y :: v' => f x y :: zip_with f u' v'
  | _, _ => []
  end.

Definition broadcast1 (f : T -> T -> T) (u v : list T) : rvec T :=
  if (List.length u =? List.length v)%nat then Ok (zip_with f u v)
  else match u, v with
       | [x], _ => Ok (map (f x) v)
       | _, [y] => Ok (map (fun a => f a y) u)
       | _, _ => Err ValueError
       end.

Definition v_bin (f : T -> T -> T) (x y : rvec T) : rvec T :=
  (u <- x ;; v <- y ;; broadcast1 f u v)%py.
Definition v_sl (f : T -> T -> T) (s : T) (y : rvec T) : rvec T :=
  fmap (map (f s)) y.
Definition v_un (f : T -> T) (x : rvec T) : rvec T :=
  fmap (map f) x.
Definition v_pow (x : rvec T) (q : Q) : rvec T := v_un (fun v => fpow v q) x.
Definition v_abs : rvec T -> rvec T := v_un fabs.
End Numpy.

Declare Scope np_scope.
Delimit Scope np_scope with np.
Bind Scope np_scope with rgrid.
Notation "x + y" := (np_bin fadd x y) : np_scope.
Notation "x - y" := (np_bin fsub x y) : np_scope.
Notation "x * y" := (np_bin fmul x y) : np_scope.
Notation "x / y" := (np_bin fdiv x y) : np_scope.
Notation "s +: y" := (np_sl fadd s y) (at level 50, left associativity) : np_scope.
Notation "s -: y" := (np_sl fsub s y) (at level 50, left associativity) : np_scope.
Notation "s *: y" := (np_sl fmul s y) (at level 40, left associativity) : np_scope.
Notation "s /: y" := (np_sl fdiv s y) (at level 40, left associativity) : np_scope.
Notation "x :+ s" := (np_sr fadd x s) (at level 50, left associativity) : np_scope.
Notation "x :* s" := (np_sr fmul x s) (at level 40, left associativity) : np_scope.
Notation "x :/ s" := (np_sr fdiv x s) (at level 40, left associativity) : np_scope.
Notation "x ** q" := (np_pow x q) (at level 30, right associativity) : np_scope.

Declare Scope np1_scope.
Delimit Scope np1_scope with np1.
Bind Scope np1_scope with rvec.
Notation "x * y" := (v_bin fmul x y) : np1_scope.
Notation "x / y" := (v_bin fdiv x y) : np1_scope.
Notation "s +: y" := (v_sl fadd s y) (at level 50, left associativity) : np1_scope.
Notation "s -: y" := (v_sl fsub s y) (at level 50, left associativity) : np1_scope.
Notation "s *: y" := (v_sl fmul s y) (at level 40, left associativity) : np1_scope.
Notation "s /: y" := (v_sl fdiv s y) (at level 40, left associativity) : np1_scope.
Notation "x ** q" := (v_pow x q) (at level 30, right associativity) : np1_scope.

(** ** The program *)

(** [str(res)] for an integer resolution. *)
Definition str (z : Z) : string := NilZero.string_of_int (Z.to_int z).

(** The standalone utility [calc_rh]. *)
Definition calc_rh {T} `{Arith T} (air_tmp pres spfh : grid T) : rgrid T :=
  (lit 0.263 *: pres * spfh
   * (lit 1 /: np_exp (lit 17.67 *: air_tmp / (air_tmp :+ lit 243.5))))%np.

(** The class [snow17]. *)
Module snow17.
Section Class.
Context {T : Type} `{Arith T}.

(** Class attributes. *)
Definition SURFACE_SATURATE_VAPOR_PRESSURE : T := lit 611.
Definition Z_A : T := lit 1000.0.
Definition Z_0 : T := lit 0.01.
Definition L_S : T := lit 677.0.
Definition RHO_W : T := lit 1.0.
Definition R_SPECIFIC : T := lit 287.058.
Definition K : T := lit 0.40.
Definition PA_2_MB : T := lit 0.01.

(** The two standard-atmosphere grids [P_A_500] and [P_A_30] are class
    attributes computed when the class is defined, from elevation rasters
    that are not part of the repository: they are taken as given. *)
Variables P_A_500 P_A_30 : grid T.

(** [gdal.Open(fn, GA_ReadOnly)] followed by [.ReadAsArray()]: the raster
    stored under a file name, [None] when the file cannot be opened. *)
Variable gdal_Open : string -> option (grid T).

(** The instance attributes, as they stand when [__init__] returns. *)
Record self : Type := mkSelf {
  air_tmp : grid T;
  snow_tmp : grid T;
  pres : grid T;
  spfh : grid T;
  wind : grid T;
  dlw : grid T;
  F_c : grid T;
  res : Z;
  rh : grid T;
  e_sat_air : grid T;
  e_sat_snow : grid T;
  e_a : grid T;
  rho_a : grid T;
  b : grid T;
  fu : grid T;
  d_h_e : grid T;
  zeta : grid T;
  atm_emissivity : grid T;
  weighted_emissivity : grid T;
  LH : grid T;
  SH : grid T;
  CDLW : grid T;
  ULW : grid T
}.

(** Each method is a function of the attributes it reads and returns the
    value of the attribute it sets. *)

Definition calc_relative_humidity (pres spfh air_tmp : grid T) : rgrid T :=
  (lit 0.263 *: pres * spfh
   * (lit 1 /: np_exp (lit 17.67 *: air_tmp / (air_tmp :+ lit 243.5))))%np.

Definition calc_air_saturate_vapor_pressure (air_tmp : grid T) : rgrid T :=
  (lit 611.2 *: np_exp (lit 17.67 *: air_tmp / (lit 243.5 +: air_tmp)))%np.

Definition calc_snow_saturate_vapor_pressure (snow_tmp : grid T) : rgrid T :=
  (lit 611.2 *: np_exp (lit 17.67 *: snow_tmp / (lit 243.5 +: snow_tmp)))%np.

Definition calc_air_vapor_pressure (rh e_sat_air : grid T) : rgrid T :=
  ((rh :/ lit 100.0) * e_sat_air)%np.

Definition calc_air_density (pres air_tmp : grid T) : rgrid T :=
  (pres / (R_SPECIFIC *: (air_tmp :+ lit 273.16)) :/ lit 1000.0)%np.

Definition calc_b (res : Z) (rho_a : grid T) : rgrid T :=
  if (res =? 500)%Z
  then ((lit 0.622 *: rho_a) / (P_A_500 :* RHO_W) :* (lit 10 ** 6)%fl
        :* (K ** 2 / flog (Z_A / Z_0) ** 2)%fl)%np
  else ((lit 0.622 *: rho_a) / (P_A_30 :* RHO_W) :* (lit 10 ** 6)%fl
        :* (K ** 2 / flog (Z_A / Z_0) ** 2)%fl)%np.

Definition calc_FU (b wind : grid T) : rgrid T :=
  (b * wind :* lit 3.6)%np.

Definition calc_exchange_coefficient (wind : grid T) : rgrid T :=
  ((K ** 2)%fl *: wind :/ (flog (Z_A / Z_0) ** 2)%fl)%np.

(** The two local arrays of [calc_unstable_correction]. *)
Definition gamma_of (d_h_e wind : grid T) : rgrid T :=
  ((lit 5.3 * lit 9.4)%fl *: d_h_e / wind :* ((Z_A / Z_0) ** 0.5)%fl)%np.

Definition R_i_of (air_tmp wind : grid T) : rgrid T :=
  ((lit 2 * lit 10 * Z_A / lit 100)%fl *: air_tmp
   / (air_tmp * (lit 27.78 *: wind) ** 2))%np.

Definition calc_unstable_correction (d_h_e wind air_tmp : grid T) : rgrid T :=
  (gamma <- gamma_of d_h_e wind ;;
   R_i <- R_i_of air_tmp wind ;;
   let zeta := np_zeros (shape R_i) in
   let pos := np_where (fun x => x >? lit 0)%fl R_i in
   vals <- (lit 1 /: (lit 1 +: lit 4.7 *: take R_i pos) ** 2)%np1 ;;
   zeta <- put zeta pos vals ;;
   let neg := np_where (fun x => x <? lit 0)%fl R_i in
   vals <- (lit 1 -: (lit 9.4 *: take R_i neg
                      / (lit 1 +: take gamma neg * v_abs (take R_i neg) ** 0.5)))%np1 ;;
   zeta <- put zeta neg vals ;;
   Ok zeta)%py.

Definition calc_atm_emissivity (dlw air_tmp : grid T) : rgrid T :=
  (dlw / ((air_tmp :+ lit 273.16) ** 4 :* lit 5.67 :* (lit 10.0 ** (-8))%fl))%np.

Definition calc_weighted_emissivity (F_c atm_emissivity : grid T) : rgrid T :=
  (((lit 1.0 -: F_c) * atm_emissivity) + F_c :* lit 0.98)%np.

Definition calc_LH (zeta fu e_a e_sat_snow : grid T) : rgrid T :=
  (let Q_e := zeta :* L_S :* RHO_W :/ lit 10.0 * fu * (e_a - e_sat_snow) :* PA_2_MB in
   Q_e :* lit 11.62)%np.

Definition calc_SH (res : Z) (zeta fu air_tmp snow_tmp : grid T) : rgrid T :=
  (let Q_h :=
     if (res =? 500)%Z
     then zeta :* RHO_W :/ lit 10.0 :* lit 0.24 * P_A_500 :/ lit 0.622 * fu
          * (air_tmp - snow_tmp)
     else zeta :* RHO_W :/ lit 10.0 :* lit 0.24 * P_A_30 :/ lit 0.622 * fu
          * (air_tmp - snow_tmp) in
   Q_h :* lit 11.62)%np.

Definition calc_DLW (dlw weighted_emissivity atm_emissivity : grid T) : rgrid T :=
  (dlw * weighted_emissivity / atm_emissivity)%np.

Definition calc_ULW (snow_tmp : grid T) : rgrid T :=
  ((lit 0.98 * lit 5.67 * lit 10.0 ** (-8))%fl *: (snow_tmp :+ lit 273.16) ** 4)%np.

(** [__init__]: store the inputs, load the canopy raster of the
    resolution, run the fifteen steps in order. *)
Definition init (air_tmp snow_tmp pres spfh wind dlw : grid T) (res : Z)
  : result self :=
  let afd_fn := ("vegetation/amr_forest_density_" ++ str res ++ "m.tif")%string in
  match gdal_Open afd_fn with
  | None => Err AttributeError
  | Some raster =>
      (F_c <- (raster :/ lit 100.0)%np ;;
       rh <- calc_relative_humidity pres spfh air_tmp ;;
       e_sat_air <- calc_air_saturate_vapor_pressure air_tmp ;;
       e_sat_snow <- calc_snow_saturate_vapor_pressure snow_tmp ;;
       e_a <- calc_air_vapor_pressure rh e_sat_air ;;
       rho_a <- calc_air_density pres air_tmp ;;
       b <- calc_b res rho_a ;;
       fu <- calc_FU b wind ;;
       d_h_e <- calc_exchange_coefficient wind ;;
       zeta <- calc_unstable_correction d_h_e wind air_tmp ;;
       atm_emissivity <- calc_atm_emissivity dlw air_tmp ;;
       weighted_emissivity <- calc_weighted_emissivity F_c atm_emissivity ;;
       LH <- calc_LH zeta fu e_a e_sat_snow ;;
       SH <- calc_SH res zeta fu air_tmp snow_tmp ;;
       CDLW <- calc_DLW dlw weighted_emissivity atm_emissivity ;;
       ULW <- calc_ULW snow_tmp ;;
       Ok (mkSelf air_tmp snow_tmp pres spfh wind dlw F_c res rh e_sat_air
             e_sat_snow e_a rho_a b fu d_h_e zeta atm_emissivity
             weighted_emissivity LH SH CDLW ULW))%py
  end.
End Class.
End snow17.

(** ** The formulas cell by cell *)

(** When every array of an element-wise expression has the same shape, a
    cell of the result is the scalar form of the expression at the
    corresponding cells of the operands.  The scalar forms are named here;
    the lemmas [*_cw] below relate each method to its scalar form. *)
Section ScalarForms.
Context {T : Type} `{Arith T}.
Import snow17.
Local Open Scope fl_scope.

Definition rh_at (pres spfh air_tmp : T) : T :=
  lit 0.263 * pres * spfh * (lit 1 / fexp (lit 17.67 * air_tmp / (air_tmp + lit 243.5))).

Definition e_sat_at (tmp : T) : T :=
  lit 611.2 * fexp (lit 17.67 * tmp / (lit 243.5 + tmp)).

Definition e_a_at (rh e_sat_air : T) : T := rh / lit 100.0 * e_sat_air.

Definition rho_a_at (pres air_tmp : T) : T :=
  pres / (R_SPECIFIC * (air_tmp + lit 273.16)) / lit 1000.0.

Definition b_at (P_A rho_a : T) : T :=
  lit 0.622 * rho_a / (P_A * RHO_W) * lit 10 ** 6 * (K ** 2 / flog (Z_A / Z_0) ** 2).

Definition fu_at (b wind : T) : T := b * wind * lit 3.6.

Definition d_h_e_at (wind : T) : T := K ** 2 * wind / flog (Z_A / Z_0) ** 2.

Definition gamma_at (d_h_e wind : T) : T :=
  lit 5.3 * lit 9.4 * d_h_e / wind * (Z_A / Z_0) ** 0.5.

Definition R_i_at (air_tmp wind : T) : T :=
  lit 2 * lit 10 * Z_A / lit 100 * air_tmp / (air_tmp * (lit 27.78 * wind) ** 2).

Definition zeta_stable (R_i : T) : T := lit 1 / (lit 1 + lit 4.7 * R_i) ** 2.

Definition zeta_unstable (gamma R_i : T) : T :=
  lit 1 - lit 9.4 * R_i / (lit 1 + gamma * fabs R_i ** 0.5).

(** The assignment under [R_i < 0] comes second and overrides the one
    under [R_i > 0]; a cell under neither keeps the zero of [np.zeros]. *)
Definition zeta_of (gamma R_i : T) : T :=
  if R_i <? lit 0 then zeta_unstable gamma R_i
  else if R_i >? lit 0 then zeta_stable R_i
  else lit 0.

Definition zeta_at (d_h_e wind air_tmp : T) : T :=
  zeta_of (gamma_at d_h_e wind) (R_i_at air_tmp wind).

Definition atm_emissivity_at (dlw air_tmp : T) : T :=
  dlw / ((air_tmp + lit 273.16) ** 4 * lit 5.67 * lit 10.0 ** (-8)).

Definition weighted_emissivity_at (F_c atm_emissivity : T) : T :=
  (lit 1.0 - F_c) * atm_emissivity + F_c * lit 0.98.

Definition LH_at (zeta fu e_a e_sat_snow : T) : T :=
  zeta * L_S * RHO_W / lit 10.0 * fu * (e_a - e_sat_snow) * PA_2_MB * lit 11.62.

Definition SH_at (P_A zeta fu air_tmp snow_tmp : T) : T :=
  zeta * RHO_W / lit 10.0 * lit 0.24 * P_A / lit 0.622 * fu * (air_tmp - snow_tmp)
  * lit 11.62.

Definition CDLW_at (dlw weighted_emissivity atm_emissivity : T) : T :=
  dlw * weighted_emissivity / atm_emissivity.

Definition ULW_at (snow_tmp : T) : T :=
  lit 0.98 * lit 5.67 * lit 10.0 ** (-8) * (snow_tmp + lit 273.16) ** 4.

(** The two heat fluxes of a cell as functions of the inputs at that
    cell: the scalar forms above, composed in the order of [__init__]. *)
Definition fu_chain (P_A pres air_tmp wind : T) : T :=
  fu_at (b_at P_A (rho_a_at pres air_tmp)) wind.

Definition zeta_chain (air_tmp wind : T) : T :=
  zeta_at (d_h_e_at wind) wind air_tmp.

Definition LH_chain (P_A air_tmp snow_tmp pres spfh wind : T) : T :=
  LH_at (zeta_chain air_tmp wind) (fu_chain P_A pres air_tmp wind)
        (e_a_at (rh_at pres spfh air_tmp) (e_sat_at air_tmp)) (e_sat_at snow_tmp).

Definition SH_chain (P_A air_tmp snow_tmp pres wind : T) : T :=
  SH_at P_A (zeta_chain air_tmp wind) (fu_chain P_A pres air_tmp wind)
        air_tmp snow_tmp.

(** [has_shape g r c]: the array has [r] rows and [c] columns. *)
Definition has_shape (g : grid T) (r c : nat) : Prop :=
  nrows g = r /\ ncols g = c.

(** [is_grid g r c h]: an [r] by [c] array whose cell [(i, j)] is [h i j]. *)
Definition is_grid (g : grid T) (r c : nat) (h : nat -> nat -> T) : Prop :=
  has_shape g r c /\ forall i j, (i < r)%nat -> (j < c)%nat -> cell g i j = h i j.

(** [cellwise x r c h]: the expression evaluates, without raising, to such
    an array. *)
Definition cellwise (x : rgrid T) (r c : nat) (h : nat -> nat -> T) : Prop :=
  exists g, x = Ok g /\ is_grid g r c h.

(** The grid of standard pressure that a resolution selects. *)
Definition P_A_of (P_A_500 P_A_30 : grid T) (res : Z) : grid T :=
  if (res =? 500)%Z then P_A_500 else P_A_30.

(** The name of the canopy raster that a resolution selects. *)
Definition afd_fn (res : Z) : string :=
  ("vegetation/amr_forest_density_" ++ str res ++ "m.tif")%string.

(** What [__init__] leaves in the attributes when all grids are [r] by [c]:
    each derived attribute is, cell by cell, the scalar form of its
    formula at the attributes it is computed from. *)
Record evaluated (P_A raster : grid T) (s : self) (r c : nat) : Prop := {
  ev_F_c : is_grid (F_c s) r c (fun i j => cell raster i j / lit 100.0);
  ev_rh : is_grid (rh s) r c (fun i j =>
            rh_at (cell (pres s) i j) (cell (spfh s) i j) (cell (air_tmp s) i j));
  ev_e_sat_air : is_grid (e_sat_air s) r c (fun i j => e_sat_at (cell (air_tmp s) i j));
  ev_e_sat_snow : is_grid (e_sat_snow s) r c (fun i j => e_sat_at (cell (snow_tmp s) i j));
  ev_e_a : is_grid (e_a s) r c (fun i j =>
            e_a_at (cell (rh s) i j) (cell (e_sat_air s) i j));
  ev_rho_a : is_grid (rho_a s) r c (fun i j =>
            rho_a_at (cell (pres s) i j) (cell (air_tmp s) i j));
  ev_b : is_grid (b s) r c (fun i j => b_at (cell P_A i j) (cell (rho_a s) i j));
  ev_fu : is_grid (fu s) r c (fun i j => fu_at (cell (b s) i j) (cell (wind s) i j));
  ev_d_h_e : is_grid (d_h_e s) r c (fun i j => d_h_e_at (cell (wind s) i j));
  ev_zeta : is_grid (zeta s) r c (fun i j =>
            zeta_at (cell (d_h_e s) i j) (cell (wind s) i j) (cell (air_tmp s) i j));
  ev_atm : is_grid (atm_emissivity s) r c (fun i j =>
            atm_emissivity_at (cell (dlw s) i j) (cell (air_tmp s) i j));
  ev_weighted : is_grid (weighted_emissivity s) r c (fun i j =>
            weighted_emissivity_at (cell (F_c s) i j) (cell (atm_emissivity s) i j));
  ev_LH : is_grid (LH s) r c (fun i j =>
            LH_at (cell (zeta s) i j) (cell (fu s) i j) (cell (e_a s) i j)
                  (cell (e_sat_snow s) i j));
  ev_SH : is_grid (SH s) r c (fun i j =>
            SH_at (cell P_A i j) (cell (zeta s) i j) (cell (fu s) i j)
                  (cell (air_tmp s) i j) (cell (snow_tmp s) i j));
  ev_CDLW : is_grid (CDLW s) r c (fun i j =>
            CDLW_at (cell (dlw s) i j) (cell (weighted_emissivity s) i j)
                    (cell (atm_emissivity s) i j));
  ev_ULW : is_grid (ULW s) r c (fun i j => ULW_at (cell (snow_tmp s) i j))
}.

(** The inputs are stored unchanged. *)
Definition stores (s : self) (air snow p q w d : grid T) (rs : Z) : Prop :=
  air_tmp s = air /\ snow_tmp s = snow /\ pres s = p /\ spfh s = q /\
  wind s = w /\ dlw s = d /\ res s = rs.
End ScalarForms.

(** ** Exact arithmetic: the real numbers *)

Definition Rltb (x y : R) : bool := if Rlt_dec x y then true else false.

(** [x ** q] for the literal exponents of the source: integer powers, and
    the square root for [0.5]. *)
Definition Rpow (x : R) (q : Q) : R :=
  match Qred q with
  | Qmake Z0 _ => 1%R
  | Qmake (Zpos n) 1 => (x ^ Pos.to_nat n)%R
  | Qmake (Zneg n) 1 => (/ x ^ Pos.to_nat n)%R
  | Qmake 1 2 => sqrt x
  | q' => Rpower x (Q2R q')
  end.

#[export] Instance R_arith : Arith R := {|
  lit := Q2R;
  fadd := Rplus;
  fsub := Rminus;
  fmul := Rmult;
  fdiv := Rdiv;
  fpow := Rpow;
  fexp := exp;
  flog := ln;
  fabs := Rabs;
  fltb := Rltb
|}.

(** ** Concrete inputs *)

(** The [r] by [c] grid with the same decimal value in every cell. *)
Definition uniform (r c : nat) (v : Q) : grid R := np_full (r, c) (Q2R v).

(** A raster directory in which every name opens the same raster. *)
Definition any_raster (g : grid R) : string -> option (grid R) :=
  fun _ => Some g.

(** A raster directory that holds one file. *)
Definition one_raster (fn : string) (g : grid R) : string -> option (grid R) :=
  fun f => if String.eqb f fn then Some g else None.

(** The 1 by 2 grid with the two given decimal values. *)
Definition row2 (v0 v1 : Q) : grid R :=
  mkGrid 1 2 (fun _ j => if (j =? 0)%nat then Q2R v0 else Q2R v1).

(** ** The longwave output of a cell as a function of the inputs *)

(** The scalar forms of [calc_atm_emissivity], [calc_weighted_emissivity]
    and [calc_DLW], composed in the order of [__init__]; [raster] is the cell
    of the canopy raster, in percent. *)
Definition CDLW_chain {T} `{Arith T} (raster dlw air_tmp : T) : T :=
  CDLW_at dlw
    (weighted_emissivity_at (raster / lit 100.0)%fl (atm_emissivity_at dlw air_tmp))
    (atm_emissivity_at dlw air_tmp).

(** ** Errors raised by numpy *)

(** The errors that numpy itself raises, as opposed to the [AttributeError]
    of a raster that did not open. *)
Definition numpy_error (e : exn) : Prop := e = ValueError \/ e = IndexError.

(** A computation that, when it fails, fails with an error of numpy. *)
Definition numpy_only {A : Type} (m : result A) : Prop :=
  forall e, m = Err e -> numpy_error e.

(** ** numpy's float64 *)

(** The cells of the program's arrays are IEEE 754 binary64 numbers: Rocq's
    primitive floats.  The standard fixes [+], [-], [*], [/], the square
    root, the absolute value and [<] to the last bit.  It does not fix
    [exp], [log] and [pow], which numpy and Python take from the C library
    and whose last bits vary from one library to the next: they are
    parameters of the arithmetic ([c_pow x q] is [pow(x, q)] for a literal
    exponent [q]). *)
Section Binary64.
Import PrimFloat.

Record libm : Type := mkLibm {
  c_exp : float -> float;
  c_log : float -> float;
  c_pow : float -> Q -> float
}.

(** An integer as a float, exact when the integer is a float (as it is
    below 2^53). *)
Definition float_of_Z (z : Z) : float :=
  match z with
  | Z0 => zero
  | Zpos _ => of_uint63 (Uint63.of_Z z)
  | Zneg p => opp (of_uint63 (Uint63.of_Z (Zpos p)))
  end.

(** A decimal literal [n / 10^k] of the source.  Python reads it as the
    nearest float, which is the quotient of the floats [n] and [10^k] when
    both integers are floats, as in every literal of the source. *)
Definition float_of_Q (q : Q) : float :=
  div (float_of_Z (Qnum q)) (float_of_Z (Zpos (Qden q))).

(** [x ** q].  On an array numpy computes [** 2.] as the square [x * x] and
    [** 0.5] as the square root; [** 4] on an array and the powers of
    Python floats ([10.0 ** (-8)], [10. ** 6.]) are calls of the C
    library's [pow].  The squares and the root of Python floats in
    [calc_b], [calc_exchange_coefficient] and [gamma] are calls of [pow]
    too: they are read here as numpy reads them on arrays. *)
Definition float_pow (m : libm) (x : float) (q : Q) : float :=
  match Qred q with
  | Qmake 2 1 => mul x x
  | Qmake 1 2 => sqrt x
  | q' => c_pow m x q'
  end.

Definition float64 (m : libm) : Arith float := {|
  lit := float_of_Q;
  fadd := add;
  fsub := sub;
  fmul := mul;
  fdiv := div;
  fpow := float_pow m;
  fexp := c_exp m;
  flog := c_log m;
  fabs := abs;
  fltb := ltb
|}.

(** [near x v]: [x] is [v] or one of the two floats next to it. *)
Definition near (x v : float) : Prop :=
  x = next_down v \/ x = v \/ x = next_up v.

(** *** A C library to run the program with *)

(** [exp] and [log] by their series after the usual reduction of the
    argument, accurate to about one unit in the last place; integer powers
    by repeated multiplication, other powers through [exp] and [log]. *)

(** The integer part of a float (0 for an infinity or NaN). *)
Definition Z_of_float (x : float) : Z :=
  match FloatOps.Prim2SF x with
  | SpecFloat.S754_finite s n e =>
      let z := Z.shiftl (Zpos n) e in if s then Z.opp z else z
  | _ => 0%Z
  end.

Definition ln2 : float := float_of_Q 0.6931471805599453.

(** [1 + r/k (1 + r/(k+1) (1 + ...))], [n] terms. *)
Fixpoint exp_series (r : float) (n : nat) (k : float) : float :=
  match n with
  | O => 1
  | S n' => 1 + r / k * exp_series r n' (k + 1)
  end%float.

(** [exp x = 2^k exp r] with [x = k ln2 + r]. *)
Definition series_exp (x : float) : float :=
  if (x =? neg_infinity)%float then 0%float
  else
    let k := Z_of_float (x / ln2)%float in
    let r := (x - float_of_Z k * ln2)%float in
    FloatOps.Z.ldexp (exp_series r 20 1) k.

(** [1/k + s2 (1/(k+2) + s2 (...))], [n] terms. *)
Fixpoint atanh_series (s2 : float) (n : nat) (k : float) : float :=
  match n with
  | O => 0
  | S n' => 1 / k + s2 * atanh_series s2 n' (k + 2)
  end%float.

(** [log x = e ln2 + 2 atanh ((f - 1) / (f + 1))] with [x = 2^e f] and [f]
    between 0.7071 and 1.4142. *)
Definition series_log (x : float) : float :=
  if (x <? 0)%float then nan
  else if (x =? 0)%float then neg_infinity
  else if (x =? infinity)%float then infinity
  else
    let (f, e) := FloatOps.Z.frexp x in
    let (f, e) :=
      if (f <? float_of_Q 0.7071)%float then ((2 * f)%float, (e - 1)%Z) else (f, e) in
    let s := ((f - 1) / (f + 1))%float in
    (float_of_Z e * ln2 + 2 * s * atanh_series (s * s) 16 1)%float.

Fixpoint pow_nat (x : float) (n : nat) : float :=
  match n with
  | O => 1
  | S O => x
  | S n' => pow_nat x n' * x
  end%float.

Definition series_pow (x : float) (q : Q) : float :=
  match q with
  | Qmake Z0 _ => 1%float
  | Qmake (Zpos n) 1 => pow_nat x (Pos.to_nat n)
  | Qmake (Zneg n) 1 => (1 / pow_nat x (Pos.to_nat n))%float
  | _ => series_exp (float_of_Q q * series_log x)
  end.

Definition series_libm : libm := mkLibm series_exp series_log series_pow.

(** *** Concrete float64 inputs *)

(** The [r] by [c] grid with the same decimal value in every cell. *)
Definition uniform64 (r c : nat) (v : Q) : grid float :=
  np_full (r, c) (float_of_Q v).

(** A raster directory that holds one file. *)
Definition one_raster64 (fn : string) (g : grid float)
  : string -> option (grid float) :=
  fun f => if String.eqb f fn then Some g else None.
End Binary64.

(** * Properties *)

(** ** The numpy layer *)

Section NumpyFacts.
Context {T : Type} `{Arith T}.

Lemma bdim_same (n : nat) : bdim n n = Some n.
Proof. unfold bdim. now rewrite Nat.eqb_refl. Qed.

Lemma bidx_lt (m i : nat) : (i < m)%nat -> bidx m i = i.
Proof.
  unfold bidx. intros Hi.
  destruct (Nat.eqb_spec m 1) as [-> | _]; [lia | reflexivity].
Qed.

(** Dimensions that are different and both different from 1 do not
    broadcast. *)
Lemma bdim_incompatible (m n : nat) :
  m <> n -> m <> 1%nat -> n <> 1%nat -> bdim m n = None.
Proof.
  intros Hmn Hm Hn. unfold bdim.
  destruct (Nat.eqb_spec m n); [contradiction |].
  destruct (Nat.eqb_spec m 1); [contradiction |].
  destruct (Nat.eqb_spec n 1); [contradiction | reflexivity].
Qed.

Lemma is_grid_shape (g : grid T) r c h : is_grid g r c h -> has_shape g r c.
Proof. now intros [Hs _]. Qed.

Lemma is_grid_cell (g : grid T) r c h i j :
  is_grid g r c h -> (i < r)%nat -> (j < c)%nat -> cell g i j = h i j.
Proof. intros [_ Hc]. apply Hc. Qed.

Lemma is_grid_self (g : grid T) r c : has_shape g r c -> is_grid g r c (cell g).
Proof. intros Hs. split; [exact Hs | reflexivity]. Qed.

Lemma cw_arr (g : grid T) r c : has_shape g r c -> cellwise (arr g) r c (cell g).
Proof. intros Hs. exists g. split; [reflexivity | now apply is_grid_self]. Qed.

Lemma cw_ext (x : rgrid T) r c h h' :
  cellwise x r c h ->
  (forall i j, (i < r)%nat -> (j < c)%nat -> h i j = h' i j) ->
  cellwise x r c h'.
Proof.
  intros (g & Hx & Hs & Hc) Hh. exists g. split; [exact Hx |].
  split; [exact Hs |]. intros i j Hi Hj.
  rewrite Hc by assumption. now apply Hh.
Qed.

Lemma cw_bin (f : T -> T -> T) (x y : rgrid T) r c hx hy :
  cellwise x r c hx -> cellwise y r c hy ->
  cellwise (np_bin f x y) r c (fun i j => f (hx i j) (hy i j)).
Proof.
  intros (a & -> & [Har Hac] & Ha) (b' & -> & [Hbr Hbc] & Hb).
  unfold np_bin, bind, broadcast2.
  rewrite Har, Hac, Hbr, Hbc, !bdim_same.
  eexists. split; [reflexivity |].
  split; [split; reflexivity |]. cbn. intros i j Hi Hj.
  rewrite !bidx_lt by assumption. now rewrite Ha, Hb.
Qed.

Lemma cw_sl (f : T -> T -> T) (s : T) (y : rgrid T) r c hy :
  cellwise y r c hy -> cellwise (np_sl f s y) r c (fun i j => f s (hy i j)).
Proof.
  intros (a & -> & [Har Hac] & Ha). eexists. split; [reflexivity |].
  split; [split; assumption |]. cbn. intros i j Hi Hj. now rewrite Ha.
Qed.

Lemma cw_sr (f : T -> T -> T) (x : rgrid T) (s : T) r c hx :
  cellwise x r c hx -> cellwise (np_sr f x s) r c (fun i j => f (hx i j) s).
Proof.
  intros (a & -> & [Har Hac] & Ha). eexists. split; [reflexivity |].
  split; [split; assumption |]. cbn. intros i j Hi Hj. now rewrite Ha.
Qed.

Lemma cw_un (f : T -> T) (x : rgrid T) r c hx :
  cellwise x r c hx -> cellwise (np_un f x) r c (fun i j => f (hx i j)).
Proof.
  intros (a & -> & [Har Hac] & Ha). eexists. split; [reflexivity |].
  split; [split; assumption |]. cbn. intros i j Hi Hj. now rewrite Ha.
Qed.

(** An operand that cannot be broadcast against the other raises. *)
Lemma np_bin_incompatible (f : T -> T -> T) (a b' : grid T) :
  bdim (nrows a) (nrows b') = None \/ bdim (ncols a) (ncols b') = None ->
  np_bin f (arr a) (arr b') = Err ValueError.
Proof.
  intros [Hn | Hn]; unfold np_bin, arr, bind, broadcast2; rewrite Hn;
    [reflexivity | now destruct (bdim (nrows a) (nrows b'))].
Qed.

(** *** Index arrays *)

Lemma np_where_In (p : T -> bool) (g : grid T) i j :
  In (i, j) (np_where p g) <->
  (i < nrows g)%nat /\ (j < ncols g)%nat /\ p (cell g i j) = true.
Proof.
  unfold np_where. rewrite filter_In, in_prod_iff, !in_seq. cbn. intuition lia.
Qed.

Lemma np_where_in_bounds (p : T -> bool) (g g' : grid T) :
  nrows g' = nrows g -> ncols g' = ncols g ->
  forallb (in_bounds g') (np_where p g) = true.
Proof.
  intros Hr Hc. apply forallb_forall. intros [i j] Hin.
  apply np_where_In in Hin. unfold in_bounds. cbn.
  rewrite Hr, Hc. apply andb_true_iff. split; apply Nat.ltb_lt; lia.
Qed.

Lemma take_in_bounds (g : grid T) (idx : list (nat * nat)) :
  forallb (in_bounds g) idx = true ->
  take g idx = Ok (map (fun ij => cell g (fst ij) (snd ij)) idx).
Proof.
  induction idx as [| ij idx IH]; cbn; [reflexivity |].
  intros Hb. apply andb_true_iff in Hb as [Hij Hrest].
  now rewrite Hij, (IH Hrest).
Qed.

Lemma zip_with_map {I : Type} (f : T -> T -> T) (u v : I -> T) (l : list I) :
  zip_with f (map u l) (map v l) = map (fun k => f (u k) (v k)) l.
Proof. induction l as [| k l IH]; cbn; [reflexivity | now rewrite IH]. Qed.

Lemma v_bin_map {I : Type} (f : T -> T -> T) (u v : I -> T) (l : list I) :
  v_bin f (Ok (map u l)) (Ok (map v l)) = Ok (map (fun k => f (u k) (v k)) l).
Proof.
  unfold v_bin, bind, broadcast1.
  now rewrite !length_map, Nat.eqb_refl, zip_with_map.
Qed.

Lemma v_sl_map {I : Type} (f : T -> T -> T) (s : T) (u : I -> T) (l : list I) :
  v_sl f s (Ok (map u l)) = Ok (map (fun k => f s (u k)) l).
Proof. unfold v_sl, fmap, bind. now rewrite map_map. Qed.

Lemma v_un_map {I : Type} (f : T -> T) (u : I -> T) (l : list I) :
  v_un f (Ok (map u l)) = Ok (map (fun k => f (u k)) l).
Proof. unfold v_un, fmap, bind. now rewrite map_map. Qed.

(** Assigning, at each index of a list, a value computed from the index:
    a listed cell gets its value, the others are untouched. *)
Lemma assign_map (h : nat * nat -> T) (idx : list (nat * nat)) :
  forall (f : nat -> nat -> T) i j,
    assign f idx (map h idx) i j
    = if existsb (fun ij => (i =? fst ij) && (j =? snd ij))%nat idx
      then h (i, j) else f i j.
Proof.
  induction idx as [| [i0 j0] idx IH]; intros f i j; cbn; [reflexivity |].
  rewrite IH. unfold upd. cbn.
  destruct (existsb _ idx); [now rewrite orb_true_r |].
  rewrite orb_false_r.
  destruct (Nat.eqb_spec i i0) as [-> |]; [| reflexivity].
  destruct (Nat.eqb_spec j j0) as [-> |]; reflexivity.
Qed.

Lemma existsb_np_where (p : T -> bool) (g : grid T) i j :
  (i < nrows g)%nat -> (j < ncols g)%nat ->
  existsb (fun ij => (i =? fst ij) && (j =? snd ij))%nat (np_where p g)
  = p (cell g i j).
Proof.
  intros Hi Hj. destruct (p (cell g i j)) eqn:Hp.
  - apply existsb_exists. exists (i, j). split.
    + apply np_where_In. auto.
    + cbn. now rewrite !Nat.eqb_refl.
  - destruct (existsb _ _) eqn:He; [| reflexivity].
    apply existsb_exists in He as ([i' j'] & Hin & Heq). cbn in Heq.
    apply andb_true_iff in Heq as [Hi' Hj'].
    apply Nat.eqb_eq in Hi', Hj'. subst i' j'.
    apply np_where_In in Hin. destruct Hin as (_ & _ & Hp'). congruence.
Qed.

(** [g[np.where(cond(a))] = h(...)]: the cells of [g] where the condition
    holds of [a] are replaced. *)
Lemma put_where (p : T -> bool) (g a : grid T) (h : nat * nat -> T) r c :
  has_shape g r c -> has_shape a r c ->
  exists g', put g (np_where p a) (map h (np_where p a)) = Ok g' /\
             is_grid g' r c (fun i j => if p (cell a i j) then h (i, j) else cell g i j).
Proof.
  intros [Hgr Hgc] [Har Hac]. unfold put.
  rewrite np_where_in_bounds by congruence.
  rewrite length_map, Nat.eqb_refl. cbn.
  eexists. split; [reflexivity |]. split; [split; assumption |].
  cbn. intros i j Hi Hj. rewrite assign_map, existsb_np_where by lia.
  reflexivity.
Qed.
End NumpyFacts.

(** ** The methods, cell by cell *)

Ltac cw_step :=
  first [ eapply cw_bin | eapply cw_sl | eapply cw_sr | eapply cw_un
        | eapply cw_arr; eassumption ].

(** Solves [cellwise e r c h] for an element-wise expression [e] over
    arrays known to be [r] by [c]. *)
Ltac cw := eapply cw_ext; [ repeat cw_step | intros; reflexivity ].

Section Methods.
Context {T : Type} `{Arith T}.
Import snow17.
Variables (r c : nat).

Lemma calc_rh_cw (air p q : grid T) :
  has_shape air r c -> has_shape p r c -> has_shape q r c ->
  cellwise (calc_rh air p q) r c
    (fun i j => rh_at (cell p i j) (cell q i j) (cell air i j)).
Proof. intros. unfold calc_rh. cw. Qed.

Lemma calc_relative_humidity_cw (p q air : grid T) :
  has_shape p r c -> has_shape q r c -> has_shape air r c ->
  cellwise (calc_relative_humidity p q air) r c
    (fun i j => rh_at (cell p i j) (cell q i j) (cell air i j)).
Proof. intros. unfold calc_relative_humidity. cw. Qed.

Lemma calc_air_saturate_vapor_pressure_cw (air : grid T) :
  has_shape air r c ->
  cellwise (calc_air_saturate_vapor_pressure air) r c
    (fun i j => e_sat_at (cell air i j)).
Proof. intros. unfold calc_air_saturate_vapor_pressure. cw. Qed.

Lemma calc_snow_saturate_vapor_pressure_cw (snow : grid T) :
  has_shape snow r c ->
  cellwise (calc_snow_saturate_vapor_pressure snow) r c
    (fun i j => e_sat_at (cell snow i j)).
Proof. intros. unfold calc_snow_saturate_vapor_pressure. cw. Qed.

Lemma calc_air_vapor_pressure_cw (h es : grid T) :
  has_shape h r c -> has_shape es r c ->
  cellwise (calc_air_vapor_pressure h es) r c
    (fun i j => e_a_at (cell h i j) (cell es i j)).
Proof. intros. unfold calc_air_vapor_pressure. cw. Qed.

Lemma calc_air_density_cw (p air : grid T) :
  has_shape p r c -> has_shape air r c ->
  cellwise (calc_air_density p air) r c
    (fun i j => rho_a_at (cell p i j) (cell air i j)).
Proof. intros. unfold calc_air_density. cw. Qed.

Lemma calc_b_cw (P500 P30 : grid T) (rs : Z) (rho : grid T) :
  has_shape (P_A_of P500 P30 rs) r c -> has_shape rho r c ->
  cellwise (calc_b P500 P30 rs rho) r c
    (fun i j => b_at (cell (P_A_of P500 P30 rs) i j) (cell rho i j)).
Proof.
  unfold calc_b, P_A_of. intros. destruct (rs =? 500)%Z; cw.
Qed.

Lemma calc_FU_cw (b0 w : grid T) :
  has_shape b0 r c -> has_shape w r c ->
  cellwise (calc_FU b0 w) r c (fun i j => fu_at (cell b0 i j) (cell w i j)).
Proof. intros. unfold calc_FU. cw. Qed.

Lemma calc_exchange_coefficient_cw (w : grid T) :
  has_shape w r c ->
  cellwise (calc_exchange_coefficient w) r c (fun i j => d_h_e_at (cell w i j)).
Proof. intros. unfold calc_exchange_coefficient. cw. Qed.

Lemma gamma_of_cw (d w : grid T) :
  has_shape d r c -> has_shape w r c ->
  cellwise (gamma_of d w) r c (fun i j => gamma_at (cell d i j) (cell w i j)).
Proof. intros. unfold gamma_of. cw. Qed.

Lemma R_i_of_cw (air w : grid T) :
  has_shape air r c -> has_shape w r c ->
  cellwise (R_i_of air w) r c (fun i j => R_i_at (cell air i j) (cell w i j)).
Proof. intros. unfold R_i_of. cw. Qed.

(** The stability correction, given its two local arrays: the index
    arrays of [np.where] and the two assignments amount to the cell-wise
    choice [zeta_of]. *)
Lemma calc_unstable_correction_of (d w air gamma R_i : grid T) :
  gamma_of d w = Ok gamma -> R_i_of air w = Ok R_i ->
  has_shape gamma r c -> has_shape R_i r c ->
  cellwise (calc_unstable_correction d w air) r c
    (fun i j => zeta_of (cell gamma i j) (cell R_i i j)).
Proof.
  intros Hg HR Hgs HRs. pose proof Hgs as [Hgr Hgc]. pose proof HRs as [HRr HRc].
  unfold calc_unstable_correction. rewrite Hg, HR. cbn [bind].
  rewrite !(take_in_bounds R_i) by (now apply np_where_in_bounds).
  rewrite (take_in_bounds gamma) by (apply np_where_in_bounds; congruence).
  unfold v_pow, v_abs.
  repeat first [ rewrite v_sl_map | rewrite v_un_map | rewrite v_bin_map ].
  cbn [bind].
  match goal with
  | |- context [put ?z (np_where ?p R_i) (map ?h _)] =>
      destruct (@put_where _ p z R_i h r c) as (z1 & Hz1 & Hz1s & Hz1c);
      [ split; cbn; congruence | exact HRs | rewrite Hz1; cbn [bind] ]
  end.
  match goal with
  | |- context [put z1 (np_where ?p R_i) (map ?h _)] =>
      destruct (@put_where _ p z1 R_i h r c) as (z2 & Hz2 & Hz2s & Hz2c);
      [ exact Hz1s | exact HRs | rewrite Hz2; cbn [bind] ]
  end.
  exists z2. split; [reflexivity |]. split; [exact Hz2s |].
  intros i j Hi Hj. rewrite Hz2c, Hz1c by assumption. reflexivity.
Qed.

Lemma calc_unstable_correction_cw (d w air : grid T) :
  has_shape d r c -> has_shape w r c -> has_shape air r c ->
  cellwise (calc_unstable_correction d w air) r c
    (fun i j => zeta_at (cell d i j) (cell w i j) (cell air i j)).
Proof.
  intros Hd Hw Hair.
  destruct (gamma_of_cw Hd Hw) as (gamma & Hg & Hgs & Hgc).
  destruct (R_i_of_cw Hair Hw) as (R_i & HR & HRs & HRc).
  eapply cw_ext; [ now apply (@calc_unstable_correction_of d w air gamma R_i) |].
  intros i j Hi Hj. cbn. unfold zeta_at. now rewrite Hgc, HRc.
Qed.

Lemma calc_atm_emissivity_cw (d air : grid T) :
  has_shape d r c -> has_shape air r c ->
  cellwise (calc_atm_emissivity d air) r c
    (fun i j => atm_emissivity_at (cell d i j) (cell air i j)).
Proof. intros. unfold calc_atm_emissivity. cw. Qed.

Lemma calc_weighted_emissivity_cw (f e : grid T) :
  has_shape f r c -> has_shape e r c ->
  cellwise (calc_weighted_emissivity f e) r c
    (fun i j => weighted_emissivity_at (cell f i j) (cell e i j)).
Proof. intros. unfold calc_weighted_emissivity. cw. Qed.

Lemma calc_LH_cw (z f ea es : grid T) :
  has_shape z r c -> has_shape f r c -> has_shape ea r c -> has_shape es r c ->
  cellwise (calc_LH z f ea es) r c
    (fun i j => LH_at (cell z i j) (cell f i j) (cell ea i j) (cell es i j)).
Proof. intros. unfold calc_LH. cw. Qed.

Lemma calc_SH_cw (P500 P30 : grid T) (rs : Z) (z f air snow : grid T) :
  has_shape (P_A_of P500 P30 rs) r c ->
  has_shape z r c -> has_shape f r c -> has_shape air r c -> has_shape snow r c ->
  cellwise (calc_SH P500 P30 rs z f air snow) r c
    (fun i j => SH_at (cell (P_A_of P500 P30 rs) i j) (cell z i j) (cell f i j)
                      (cell air i j) (cell snow i j)).
Proof.
  unfold calc_SH, P_A_of. intros. destruct (rs =? 500)%Z; cw.
Qed.

Lemma calc_DLW_cw (d we e : grid T) :
  has_shape d r c -> has_shape we r c -> has_shape e r c ->
  cellwise (calc_DLW d we e) r c
    (fun i j => CDLW_at (cell d i j) (cell we i j) (cell e i j)).
Proof. intros. unfold calc_DLW. cw. Qed.

Lemma calc_ULW_cw (snow : grid T) :
  has_shape snow r c ->
  cellwise (calc_ULW snow) r c (fun i j => ULW_at (cell snow i j)).
Proof. intros. unfold calc_ULW. cw. Qed.
End Methods.

(** ** The whole evaluation on grids of one shape *)

Section Init.
Context {T : Type} `{Arith T}.
Import snow17.
Variables (P_A_500 P_A_30 : grid T) (gdal_Open : string -> option (grid T)).

Ltac shapes := first [ assumption | eapply is_grid_shape; eassumption ].

Ltac run lem g :=
  let E := fresh "E" in
  edestruct lem as (g & E & ?); [ shapes .. | rewrite E; cbn [bind] ].

(** When the canopy raster of the resolution opens and every grid is
    [r] by [c], [__init__] returns, and its attributes are the scalar
    formulas cell by cell. *)
Lemma init_evaluated (air snow p q w d : grid T) (rs : Z) (raster : grid T) r c :
  gdal_Open (afd_fn rs) = Some raster ->
  has_shape raster r c -> has_shape (P_A_of P_A_500 P_A_30 rs) r c ->
  has_shape air r c -> has_shape snow r c -> has_shape p r c ->
  has_shape q r c -> has_shape w r c -> has_shape d r c ->
  exists s, init P_A_500 P_A_30 gdal_Open air snow p q w d rs = Ok s /\
            stores s air snow p q w d rs /\
            evaluated (P_A_of P_A_500 P_A_30 rs) raster s r c.
Proof.
  intros Hopen Hra HPA Hair Hsnow Hp Hq Hw Hd.
  unfold init. fold (afd_fn rs). rewrite Hopen.
  assert (HF : cellwise (arr raster :/ lit 100.0)%np r c
                 (fun i j => (cell raster i j / lit 100.0)%fl)) by cw.
  destruct HF as (F & EF & HF). rewrite EF. cbn [bind].
  run (@calc_relative_humidity_cw T _ r c p q air) g_rh.
  run (@calc_air_saturate_vapor_pressure_cw T _ r c air) g_esa.
  run (@calc_snow_saturate_vapor_pressure_cw T _ r c snow) g_ess.
  run (@calc_air_vapor_pressure_cw T _ r c g_rh g_esa) g_ea.
  run (@calc_air_density_cw T _ r c p air) g_rho.
  run (@calc_b_cw T _ r c P_A_500 P_A_30 rs g_rho) g_b.
  run (@calc_FU_cw T _ r c g_b w) g_fu.
  run (@calc_exchange_coefficient_cw T _ r c w) g_dhe.
  run (@calc_unstable_correction_cw T _ r c g_dhe w air) g_zeta.
  run (@calc_atm_emissivity_cw T _ r c d air) g_atm.
  run (@calc_weighted_emissivity_cw T _ r c F g_atm) g_we.
  run (@calc_LH_cw T _ r c g_zeta g_fu g_ea g_ess) g_LH.
  run (@calc_SH_cw T _ r c P_A_500 P_A_30 rs g_zeta g_fu air snow) g_SH.
  run (@calc_DLW_cw T _ r c d g_we g_atm) g_CDLW.
  run (@calc_ULW_cw T _ r c snow) g_ULW.
  eexists. split; [reflexivity |].
  split; [repeat split |].
  constructor; cbn; assumption.
Qed.

(** The heat fluxes of an evaluation in terms of its inputs. *)
Lemma evaluated_fluxes (P_A raster : grid T) (s : self)
    (air snow p q w d : grid T) (rs : Z) r c :
  evaluated P_A raster s r c -> stores s air snow p q w d rs ->
  forall i j, (i < r)%nat -> (j < c)%nat ->
    cell (LH s) i j
    = LH_chain (cell P_A i j) (cell air i j) (cell snow i j)
               (cell p i j) (cell q i j) (cell w i j) /\
    cell (SH s) i j
    = SH_chain (cell P_A i j) (cell air i j) (cell snow i j)
               (cell p i j) (cell w i j).
Proof.
  intros Ev (Ea & Es & Ep & Eq & Ew & Ed & Er) i j Hi Hj.
  unfold LH_chain, SH_chain, fu_chain, zeta_chain.
  rewrite (is_grid_cell (ev_LH Ev)), (is_grid_cell (ev_SH Ev)) by assumption.
  rewrite (is_grid_cell (ev_zeta Ev)), (is_grid_cell (ev_fu Ev)),
    (is_grid_cell (ev_e_a Ev)), (is_grid_cell (ev_e_sat_snow Ev)) by assumption.
  rewrite (is_grid_cell (ev_d_h_e Ev)), (is_grid_cell (ev_b Ev)),
    (is_grid_cell (ev_rh Ev)), (is_grid_cell (ev_e_sat_air Ev)) by assumption.
  rewrite (is_grid_cell (ev_rho_a Ev)) by assumption.
  rewrite Ea, Es, Ep, Eq, Ew. split; reflexivity.
Qed.

(** Without the canopy raster there is no evaluation at all. *)
Lemma init_no_raster (air snow p q w d : grid T) (rs : Z) :
  gdal_Open (afd_fn rs) = None ->
  init P_A_500 P_A_30 gdal_Open air snow p q w d rs = Err AttributeError.
Proof. intros Hopen. unfold init. fold (afd_fn rs). now rewrite Hopen. Qed.
End Init.

(** ** Exact arithmetic *)

Section RealFacts.
Local Open Scope R_scope.

Lemma Rltb_true (x y : R) : Rltb x y = true <-> x < y.
Proof. unfold Rltb. destruct (Rlt_dec x y); intuition discriminate. Qed.

Lemma Rltb_false (x y : R) : Rltb x y = false <-> ~ x < y.
Proof. unfold Rltb. destruct (Rlt_dec x y); intuition discriminate. Qed.

Lemma Rpow_2 (x : R) : Rpow x 2 = x ^ 2.
Proof. reflexivity. Qed.

Lemma Rpow_4 (x : R) : Rpow x 4 = x ^ 4.
Proof. reflexivity. Qed.

Lemma Rpow_6 (x : R) : Rpow x 6 = x ^ 6.
Proof. reflexivity. Qed.

Lemma Rpow_m8 (x : R) : Rpow x (-8) = / x ^ 8.
Proof. reflexivity. Qed.

Lemma Rpow_half (x : R) : Rpow x 0.5 = sqrt x.
Proof. reflexivity. Qed.

#[export] Instance R_laws : ArithLaws R_arith.
Proof.
  constructor. intros x y Hxy. cbn in *.
  apply Rltb_true in Hxy. apply Rltb_false. lra.
Qed.
End RealFacts.

(** Unfolds the arithmetic of the real instance down to the operations and
    numerals of the reals. *)
Ltac rsimp :=
  cbn [lit fadd fsub fmul fdiv fpow fexp flog fabs fltb R_arith] in *;
  rewrite ?Rpow_2, ?Rpow_4, ?Rpow_6, ?Rpow_m8, ?Rpow_half in *;
  unfold Q2R in *; cbn [Qnum Qden] in *;
  rewrite ?Rinv_1, ?Rmult_1_r in *.

Section SaturationPressure.
Local Open Scope R_scope.
Import snow17.

Lemma e_sat_at_real (t : R) :
  e_sat_at t = 611.2 * exp (17.67 * t / (243.5 + t)).
Proof. unfold e_sat_at. rsimp. reflexivity. Qed.

(** The exponent [17.67 * t / (243.5 + t)] increases with [t] above the
    pole at [-243.5]. *)
Lemma magnus_exponent_increasing (x y : R) :
  -243.5 < x -> x < y ->
  17.67 * x / (243.5 + x) < 17.67 * y / (243.5 + y).
Proof.
  intros Hx Hxy.
  assert (Ha : 0 < 243.5 + x) by lra.
  assert (Hb : 0 < 243.5 + y) by lra.
  apply Rlt_0_minus.
  replace (17.67 * y / (243.5 + y) - 17.67 * x / (243.5 + x))
    with (17.67 * 243.5 * (y - x) / ((243.5 + x) * (243.5 + y)))
    by (field; lra).
  apply Rdiv_lt_0_compat; nra.
Qed.


End SaturationPressure.

(** ** The stability correction *)

Section Stability.
Context {T : Type} {A : Arith T} {L : ArithLaws A}.
Import snow17.

Lemma fltb_irrefl (x : T) : (x <? x)%fl = false.
Proof.
  destruct (x <? x)%fl eqn:E; [| reflexivity].
  pose proof (fltb_asym _ _ E). congruence.
Qed.

Lemma zeta_of_stable (g x : T) : (x >? lit 0)%fl = true -> zeta_of g x = zeta_stable x.
Proof.
  intros Hpos. unfold zeta_of. unfold fgtb in *.
  now rewrite (fltb_asym _ _ Hpos), Hpos.
Qed.

Lemma zeta_of_unstable (g x : T) :
  (x <? lit 0)%fl = true -> zeta_of g x = zeta_unstable g x.
Proof. intros Hneg. unfold zeta_of. now rewrite Hneg. Qed.

Lemma zeta_of_neither (g x : T) :
  (x >? lit 0)%fl = false -> (x <? lit 0)%fl = false -> zeta_of g x = lit 0.
Proof. intros Hpos Hneg. unfold zeta_of. now rewrite Hneg, Hpos. Qed.

(** C1.  For every cell of the zeta grid: where the bulk Richardson
    number [R_i] is strictly positive, zeta is 1/(1 + 4.7 R_i)^2; where it
    is strictly negative, zeta is 1 - 9.4 R_i / (1 + gamma |R_i|^0.5) with
    gamma = 5.3 * 9.4 * d_h_e / wind * (Z_A/Z_0)^0.5; where it is zero (and,
    more generally, wherever neither comparison holds) zeta keeps the zero
    it was initialised with.  Stated for grids of one shape, on which the
    method returns; it holds whatever the arithmetic of the cells is, as
    long as [<] is asymmetric. *)
Theorem C1_zeta_by_sign_of_R_i (d w air : grid T) (r c : nat) :
  has_shape d r c -> has_shape w r c -> has_shape air r c ->
  exists gamma R_i zeta : grid T,
    gamma_of d w = Ok gamma /\
    R_i_of air w = Ok R_i /\
    calc_unstable_correction d w air = Ok zeta /\
    has_shape zeta r c /\
    forall i j, (i < r)%nat -> (j < c)%nat ->
      cell gamma i j
      = (lit 5.3 * lit 9.4 * cell d i j / cell w i j * (Z_A / Z_0) ** 0.5)%fl /\
      cell R_i i j
      = (lit 2 * lit 10 * Z_A / lit 100 * cell air i j
         / (cell air i j * (lit 27.78 * cell w i j) ** 2))%fl /\
      ((cell R_i i j >? lit 0)%fl = true ->
       cell zeta i j = (lit 1 / (lit 1 + lit 4.7 * cell R_i i j) ** 2)%fl) /\
      ((cell R_i i j <? lit 0)%fl = true ->
       cell zeta i j
       = (lit 1 - lit 9.4 * cell R_i i j
                  / (lit 1 + cell gamma i j * fabs (cell R_i i j) ** 0.5))%fl) /\
      (cell R_i i j = lit 0 -> cell zeta i j = lit 0) /\
      ((cell R_i i j >? lit 0)%fl = false -> (cell R_i i j <? lit 0)%fl = false ->
       cell zeta i j = lit 0).
Proof.
  intros Hd Hw Hair.
  destruct (gamma_of_cw Hd Hw) as (gamma & Hg & Hgs & Hgc).
  destruct (R_i_of_cw Hair Hw) as (R_i & HR & HRs & HRc).
  destruct (@calc_unstable_correction_of T A r c d w air gamma R_i Hg HR Hgs HRs)
    as (zeta & Hz & Hzs & Hzc).
  exists gamma, R_i, zeta. repeat split; try assumption; try apply Hzs.
  - now apply Hgc.
  - now apply HRc.
  - intros Hpos. rewrite Hzc by assumption. now apply zeta_of_stable.
  - intros Hneg. rewrite Hzc by assumption. now apply zeta_of_unstable.
  - intros Hzero. rewrite Hzc by assumption. rewrite Hzero.
    apply zeta_of_neither; apply fltb_irrefl.
  - intros Hpos Hneg. rewrite Hzc by assumption. now apply zeta_of_neither.
Qed.
End Stability.

(** The claim at the reals, on one-cell grids. *)
Lemma C1_zeta_by_sign_of_R_i_witness :
  exists zeta : grid R,
    snow17.calc_unstable_correction (uniform 1 1 0.001) (uniform 1 1 2) (uniform 1 1 5)
    = Ok zeta /\ has_shape zeta 1 1.
Proof.
  destruct (@C1_zeta_by_sign_of_R_i R R_arith R_laws
              (uniform 1 1 0.001) (uniform 1 1 2) (uniform 1 1 5) 1 1)
    as (gamma & R_i & zeta & _ & _ & Hz & Hs & _);
    [ split; reflexivity | split; reflexivity | split; reflexivity |].
  exists zeta. split; [exact Hz | exact Hs].
Defined.

(** ** The standalone relative humidity *)

Section RelativeHumidity.
Context {T : Type} `{Arith T}.
Import snow17.

(** C9.  On identical inputs the standalone [calc_rh] returns exactly what
    the evaluator computes for its [rh] attribute: the two functions are
    the same expression, and whenever [__init__] returns, [calc_rh] of its
    inputs returns the [rh] it stored. *)
Theorem C9_calc_rh_is_the_internal_rh
    (P_A_500 P_A_30 : grid T) (gdal_Open : string -> option (grid T))
    (air snow p q w d : grid T) (rs : Z) :
  calc_rh air p q = calc_relative_humidity p q air /\
  match init P_A_500 P_A_30 gdal_Open air snow p q w d rs with
  | Ok s => calc_rh air p q = Ok (rh s)
  | Err _ => True
  end.
Proof.
  split; [reflexivity |].
  unfold init. destruct (gdal_Open _) as [raster |]; [| exact I].
  cbn [bind fmap np_sr arr].
  change (calc_relative_humidity p q air) with (calc_rh air p q).
  destruct (calc_rh air p q) as [g |]; [| exact I]. cbn [bind].
  repeat match goal with
         | |- match bind ?m _ with _ => _ end =>
             destruct m; [| exact I]; cbn [bind]
         end.
  reflexivity.
Qed.
End RelativeHumidity.

(** ** The Richardson number in exact arithmetic *)

Section Richardson.
Local Open Scope R_scope.
Import snow17.

(** [air_tmp], when not zero, cancels out of [R_i]. *)
Lemma R_i_at_cancel (a w : R) :
  a <> 0 -> R_i_at a w = 2 * 10 * (1000 / 100) * / (27.78 * w) ^ 2.
Proof.
  intros Ha. unfold R_i_at, Z_A. rsimp.
  unfold Rdiv. rewrite (Rinv_mult a).
  generalize (/ (2778 * / 100 * w) ^ 2). intros v. field. exact Ha.
Qed.

Lemma R_i_at_positive (a w : R) : a <> 0 -> w <> 0 -> 0 < R_i_at a w.
Proof.
  intros Ha Hw. rewrite R_i_at_cancel by assumption.
  apply Rmult_lt_0_compat; [lra |].
  apply Rinv_0_lt_compat.
  assert (27.78 * w <> 0) by (intros E; apply Hw; lra).
  nra.
Qed.

Lemma zeta_at_stable (dhe a w : R) :
  a <> 0 -> w <> 0 ->
  zeta_at dhe w a = 1 / (1 + 4.7 * R_i_at a w) ^ 2.
Proof.
  intros Ha Hw. unfold zeta_at.
  rewrite zeta_of_stable.
  - unfold zeta_stable. rsimp. reflexivity.
  - unfold fgtb. cbn [fltb R_arith]. apply Rltb_true.
    change (lit 0) with (Q2R 0). unfold Q2R. cbn [Qnum Qden].
    pose proof (R_i_at_positive Ha Hw). lra.
Qed.


(** Two runs that differ in [air_tmp] only, nowhere zero, have the same
    [R_i], hence the same zeta. *)
Lemma zeta_at_air_tmp (dhe w a1 a2 : R) :
  a1 <> 0 -> a2 <> 0 -> zeta_at dhe w a1 = zeta_at dhe w a2.
Proof.
  intros H1 H2. unfold zeta_at. now rewrite !R_i_at_cancel.
Qed.
End Richardson.


(** ** Evaluations in exact arithmetic *)

(** Rewrites the stored inputs of an evaluation to the inputs themselves. *)
Ltac stored H :=
  let Ea := fresh "Ea" in let Es := fresh "Es" in let Ep := fresh "Ep" in
  let Eq := fresh "Eq" in let Ew := fresh "Ew" in let Ed := fresh "Ed" in
  let Er := fresh "Er" in
  destruct H as (Ea & Es & Ep & Eq & Ew & Ed & Er).

Section RealEvaluation.
Local Open Scope R_scope.
Import snow17.
Variables (P_A_500 P_A_30 : grid R) (gdal_Open : string -> option (grid R)).

(** C8, as amended.  In exact arithmetic, two evaluations whose inputs are
    the same but for the [air_tmp] grid, which is nowhere zero in either,
    compute the same zeta grid: [air_tmp] cancels out of [R_i], and zeta
    depends on [air_tmp] through [R_i] only.  For grids of one shape (on
    which both evaluations return).  The cancellation is one of exact
    arithmetic: as float64 computes them, the two grids agree up to
    rounding only (see the last part of the file). *)
Theorem C8_zeta_independent_of_air_tmp
    (air1 air2 snow p q w d : grid R) (rs : Z) (raster : grid R) (r c : nat) :
  gdal_Open (afd_fn rs) = Some raster ->
  has_shape raster r c -> has_shape (P_A_of P_A_500 P_A_30 rs) r c ->
  has_shape air1 r c -> has_shape air2 r c -> has_shape snow r c ->
  has_shape p r c -> has_shape q r c -> has_shape w r c -> has_shape d r c ->
  (forall i j, (i < r)%nat -> (j < c)%nat -> cell air1 i j <> 0) ->
  (forall i j, (i < r)%nat -> (j < c)%nat -> cell air2 i j <> 0) ->
  exists s1 s2 : self,
    init P_A_500 P_A_30 gdal_Open air1 snow p q w d rs = Ok s1 /\
    init P_A_500 P_A_30 gdal_Open air2 snow p q w d rs = Ok s2 /\
    shape (zeta s1) = shape (zeta s2) /\
    forall i j, (i < r)%nat -> (j < c)%nat ->
      cell (zeta s1) i j = cell (zeta s2) i j.
Proof.
  intros Hopen Hra HPA Ha1 Ha2 Hsnow Hp Hq Hw Hd Hnz1 Hnz2.
  destruct (init_evaluated P_A_500 P_A_30 gdal_Open rs Hopen Hra HPA
              Ha1 Hsnow Hp Hq Hw Hd) as (s1 & E1 & St1 & Ev1).
  destruct (init_evaluated P_A_500 P_A_30 gdal_Open rs Hopen Hra HPA
              Ha2 Hsnow Hp Hq Hw Hd) as (s2 & E2 & St2 & Ev2).
  exists s1, s2. split; [exact E1 |]. split; [exact E2 |].
  stored St1. stored St2.
  split.
  - unfold shape.
    destruct (is_grid_shape (ev_zeta Ev1)) as [-> ->].
    destruct (is_grid_shape (ev_zeta Ev2)) as [-> ->]. reflexivity.
  - intros i j Hi Hj.
    rewrite (is_grid_cell (ev_zeta Ev1)), (is_grid_cell (ev_zeta Ev2)) by assumption.
    rewrite (is_grid_cell (ev_d_h_e Ev1)), (is_grid_cell (ev_d_h_e Ev2)) by assumption.
    rewrite Ew, Ew0, Ea, Ea0.
    apply zeta_at_air_tmp; [now apply Hnz1 | now apply Hnz2].
Qed.

Lemma weighted_emissivity_at_no_canopy (e : R) : weighted_emissivity_at 0 e = e.
Proof. unfold weighted_emissivity_at. rsimp. lra. Qed.

Lemma CDLW_at_roundtrip (dl e : R) : e <> 0 -> CDLW_at dl e e = dl.
Proof. intros He. unfold CDLW_at. rsimp. now field. Qed.

(** In exact arithmetic, in every evaluation, at a cell where the canopy
    fraction [F_c] is zero and [atm_emissivity] is not, the weighted
    emissivity is [atm_emissivity] and the canopy-corrected downwelling
    longwave [CDLW] is the input [dlw].  For grids of one shape (on which
    the evaluation returns). *)
Lemma zero_canopy_exact
    (air snow p q w d : grid R) (rs : Z) (raster : grid R) (r c : nat) :
  gdal_Open (afd_fn rs) = Some raster ->
  has_shape raster r c -> has_shape (P_A_of P_A_500 P_A_30 rs) r c ->
  has_shape air r c -> has_shape snow r c -> has_shape p r c ->
  has_shape q r c -> has_shape w r c -> has_shape d r c ->
  exists s : self,
    init P_A_500 P_A_30 gdal_Open air snow p q w d rs = Ok s /\
    forall i j, (i < r)%nat -> (j < c)%nat ->
      cell (F_c s) i j = 0 -> cell (atm_emissivity s) i j <> 0 ->
      cell (weighted_emissivity s) i j = cell (atm_emissivity s) i j /\
      cell (CDLW s) i j = cell d i j.
Proof.
  intros Hopen Hra HPA Hair Hsnow Hp Hq Hw Hd.
  destruct (init_evaluated P_A_500 P_A_30 gdal_Open rs Hopen Hra HPA
              Hair Hsnow Hp Hq Hw Hd) as (s & E & St & Ev).
  exists s. split; [exact E |]. stored St.
  intros i j Hi Hj HF He.
  assert (Hwe : cell (weighted_emissivity s) i j = cell (atm_emissivity s) i j).
  { rewrite (is_grid_cell (ev_weighted Ev)) by assumption.
    rewrite HF. apply weighted_emissivity_at_no_canopy. }
  split; [exact Hwe |].
  rewrite (is_grid_cell (ev_CDLW Ev)) by assumption.
  rewrite Hwe, Ed. now apply CDLW_at_roundtrip.
Qed.
End RealEvaluation.

(** ** The uniform end-to-end scenario *)

Section Scenario.
Local Open Scope R_scope.
Import snow17.

(** With [air_tmp] zero, [R_i] is [0/0]: no comparison holds of it (numpy's
    NaN compares false as well) and zeta keeps its initial zero. *)
Lemma zeta_at_air_zero (dhe w a : R) : a = 0 -> zeta_at dhe w a = 0.
Proof.
  intros ->. unfold zeta_at.
  assert (HR : R_i_at 0 w = 0) by (unfold R_i_at; rsimp; unfold Rdiv; ring).
  rewrite HR. rewrite zeta_of_neither.
  - rsimp. lra.
  - unfold fgtb. cbn [fltb R_arith]. apply Rltb_false. rsimp. lra.
  - cbn [fltb R_arith]. apply Rltb_false. rsimp. lra.
Qed.

Lemma LH_at_zeta_zero (f ea es : R) : LH_at 0 f ea es = 0.
Proof. unfold LH_at. rsimp. unfold Rdiv. ring. Qed.

Lemma SH_at_zeta_zero (P f a s : R) : SH_at P 0 f a s = 0.
Proof. unfold SH_at. rsimp. unfold Rdiv. ring. Qed.

Lemma ULW_at_zero (s : R) : s = 0 -> ULW_at s = 0.98 * 5.67e-8 * 273.16 ^ 4.
Proof. intros ->. unfold ULW_at. rsimp. lra. Qed.

Lemma ULW_zero_bounds : 309.3 < 0.98 * 5.67e-8 * 273.16 ^ 4 < 309.4.
Proof. lra. Qed.

Lemma uniform_shape (r c : nat) (v : Q) : has_shape (uniform r c v) r c.
Proof. split; reflexivity. Qed.

Lemma uniform_zero (r c i j : nat) : cell (uniform r c 0) i j = 0.
Proof. cbn. unfold Q2R. cbn. lra. Qed.

Variables (P_A_500 P_A_30 : grid R) (gdal_Open : string -> option (grid R)).

(** Upwelling longwave over snow at zero degrees, whatever the other
    inputs are. *)
Lemma ULW_of_snow_at_zero (air p q w d : grid R) (rs : Z) (raster : grid R) r c :
  gdal_Open (afd_fn rs) = Some raster ->
  has_shape raster r c -> has_shape (P_A_of P_A_500 P_A_30 rs) r c ->
  has_shape air r c -> has_shape p r c ->
  has_shape q r c -> has_shape w r c -> has_shape d r c ->
  exists s : self,
    init P_A_500 P_A_30 gdal_Open air (uniform r c 0) p q w d rs = Ok s /\
    forall i j, (i < r)%nat -> (j < c)%nat ->
      cell (ULW s) i j = 0.98 * 5.67e-8 * 273.16 ^ 4.
Proof.
  intros Hopen Hra HPA Hair Hp Hq Hw Hd.
  destruct (init_evaluated P_A_500 P_A_30 gdal_Open rs Hopen Hra HPA
              Hair (uniform_shape r c 0) Hp Hq Hw Hd) as (s & E & St & Ev).
  exists s. split; [exact E |]. stored St.
  intros i j Hi Hj. rewrite (is_grid_cell (ev_ULW Ev)) by assumption.
  rewrite Es. apply ULW_at_zero. apply uniform_zero.
Qed.

(** The scenario itself: zero canopy, air and snow at zero degrees. *)
Lemma scenario_fluxes (p q w d : grid R) (raster : grid R) r c :
  gdal_Open (afd_fn 500) = Some raster ->
  has_shape raster r c -> has_shape P_A_500 r c ->
  has_shape p r c -> has_shape q r c -> has_shape w r c -> has_shape d r c ->
  (forall i j, (i < r)%nat -> (j < c)%nat -> cell raster i j = 0) ->
  exists s : self,
    init P_A_500 P_A_30 gdal_Open (uniform r c 0) (uniform r c 0) p q w d 500 = Ok s /\
    forall i j, (i < r)%nat -> (j < c)%nat ->
      cell (F_c s) i j = 0 /\ cell (LH s) i j = 0 /\ cell (SH s) i j = 0 /\
      cell (ULW s) i j = 0.98 * 5.67e-8 * 273.16 ^ 4.
Proof.
  intros Hopen Hra HPA Hp Hq Hw Hd Hzero.
  destruct (init_evaluated P_A_500 P_A_30 gdal_Open 500 Hopen Hra HPA
              (uniform_shape r c 0) (uniform_shape r c 0) Hp Hq Hw Hd)
    as (s & E & St & Ev).
  exists s. split; [exact E |]. stored St.
  intros i j Hi Hj.
  assert (Hz : cell (zeta s) i j = 0).
  { rewrite (is_grid_cell (ev_zeta Ev)) by assumption.
    apply zeta_at_air_zero. rewrite Ea. apply uniform_zero. }
  repeat split.
  - rewrite (is_grid_cell (ev_F_c Ev)) by assumption.
    rewrite Hzero by assumption. rsimp. lra.
  - rewrite (is_grid_cell (ev_LH Ev)) by assumption.
    rewrite Hz. apply LH_at_zeta_zero.
  - rewrite (is_grid_cell (ev_SH Ev)) by assumption.
    rewrite Hz. apply SH_at_zeta_zero.
  - rewrite (is_grid_cell (ev_ULW Ev)) by assumption.
    rewrite Es. apply ULW_at_zero. apply uniform_zero.
Qed.

(** C2, as amended.  In the uniform scenario (air_tmp = 0, snow_tmp = 0,
    pres = 87000, spfh = 0.003, wind = 2, dlw = 250, F_c = 0, resolution
    500, over a standard-pressure grid that is nowhere zero, so that no
    cell of [calc_b] divides by zero) the evaluation returns, LH and SH are
    finite in every cell (both are zero, zeta being left at zero by
    [air_tmp = 0]), and every cell of ULW is 0.98 * 5.67e-8 * 273.16^4,
    which lies between 309.3 and 309.4; ULW has that value whatever the
    other inputs are, as long as snow_tmp is zero.  In exact arithmetic. *)
Theorem C2_uniform_scenario (raster : grid R) (r c : nat) :
  gdal_Open (afd_fn 500) = Some raster ->
  has_shape raster r c ->
  (forall i j, (i < r)%nat -> (j < c)%nat -> cell raster i j = 0) ->
  has_shape P_A_500 r c ->
  (forall i j, (i < r)%nat -> (j < c)%nat -> cell P_A_500 i j <> 0) ->
  (exists s : self,
     init P_A_500 P_A_30 gdal_Open
       (uniform r c 0) (uniform r c 0) (uniform r c 87000) (uniform r c 0.003)
       (uniform r c 2) (uniform r c 250) 500 = Ok s /\
     forall i j, (i < r)%nat -> (j < c)%nat ->
       cell (F_c s) i j = 0 /\
       cell (LH s) i j = 0 /\
       cell (SH s) i j = 0 /\
       cell (ULW s) i j = 0.98 * 5.67e-8 * 273.16 ^ 4 /\
       309.3 < cell (ULW s) i j < 309.4) /\
  (forall air p q w d : grid R,
     has_shape air r c -> has_shape p r c -> has_shape q r c ->
     has_shape w r c -> has_shape d r c ->
     exists s : self,
       init P_A_500 P_A_30 gdal_Open air (uniform r c 0) p q w d 500 = Ok s /\
       forall i j, (i < r)%nat -> (j < c)%nat ->
         cell (ULW s) i j = 0.98 * 5.67e-8 * 273.16 ^ 4).
Proof.
  intros Hopen Hra Hzero HPA _. split.
  - destruct (@scenario_fluxes (uniform r c 87000) (uniform r c 0.003)
                (uniform r c 2) (uniform r c 250) raster r c)
      as (s & E & Hcells); auto using uniform_shape.
    exists s. split; [exact E |]. intros i j Hi Hj.
    destruct (Hcells i j Hi Hj) as (HF & HL & HS & HU).
    repeat split; try assumption; rewrite HU; apply ULW_zero_bounds.
  - intros air p q w d Hair Hp Hq Hw Hd.
    now apply (@ULW_of_snow_at_zero air p q w d 500 raster r c).
Qed.
End Scenario.

(** ** The two resolutions *)

Section Resolutions.
Local Open Scope R_scope.
Import snow17.

Ltac nonzero :=
  repeat first
    [ assumption
    | apply Rmult_integral_contrapositive_currified
    | apply Rinv_neq_0_compat
    | apply pow_nonzero
    | lra ].

Lemma ln_Z_A_Z_0_pos : 0 < ln (Z_A / Z_0).
Proof.
  unfold Z_A, Z_0. rsimp. rewrite <- ln_1. apply ln_increasing; lra.
Qed.

Lemma b_at_nonzero (P rho : R) : P <> 0 -> rho <> 0 -> b_at P rho <> 0.
Proof.
  intros HP Hrho. pose proof ln_Z_A_Z_0_pos as Hl.
  unfold b_at, RHO_W, K in *. rsimp. unfold Rdiv. nonzero.
Qed.

Lemma fu_at_nonzero (b0 w : R) : b0 <> 0 -> w <> 0 -> fu_at b0 w <> 0.
Proof. intros Hb Hw. unfold fu_at. rsimp. nonzero. Qed.

Lemma rho_a_at_nonzero (p a : R) : p <> 0 -> a + 273.16 <> 0 -> rho_a_at p a <> 0.
Proof.
  intros Hp Ha. unfold rho_a_at, R_SPECIFIC. rsimp. unfold Rdiv. nonzero.
Qed.

Lemma SH_at_nonzero (P z f a s : R) :
  P <> 0 -> z <> 0 -> f <> 0 -> a <> s -> SH_at P z f a s <> 0.
Proof.
  intros HP Hz Hf Has. unfold SH_at, RHO_W. rsimp. unfold Rdiv. nonzero.
Qed.

Lemma LH_at_nonzero (z f ea es : R) :
  z <> 0 -> f <> 0 -> ea <> es -> LH_at z f ea es <> 0.
Proof.
  intros Hz Hf He. unfold LH_at, RHO_W, L_S, PA_2_MB. rsimp. unfold Rdiv. nonzero.
Qed.

Lemma zeta_at_nonzero (dhe w a : R) : a <> 0 -> w <> 0 -> zeta_at dhe w a <> 0.
Proof.
  intros Ha Hw. rewrite zeta_at_stable by assumption.
  pose proof (R_i_at_positive Ha Hw). unfold Rdiv. nonzero.
Qed.

(** The relative humidity formula inverts the saturation formula: the
    actual vapour pressure does not depend on the temperature. *)
Lemma e_a_at_closed (p q a : R) :
  e_a_at (rh_at p q a) (e_sat_at a) = 0.263 * p * q / 100 * 611.2.
Proof.
  unfold e_a_at, rh_at, e_sat_at. rsimp.
  rewrite (Rplus_comm a).
  generalize (exp_pos (1767 * / 100 * a / (2435 * / 10 + a))).
  generalize (exp (1767 * / 100 * a / (2435 * / 10 + a))). intros e He.
  field. lra.
Qed.

Lemma e_sat_at_0 (s : R) : s = 0 -> e_sat_at s = 611.2.
Proof.
  intros ->. rewrite e_sat_at_real.
  replace (17.67 * 0 / (243.5 + 0)) with 0 by (unfold Rdiv; ring).
  rewrite exp_0. lra.
Qed.

(** In the sensible heat the standard pressure cancels: [SH] multiplies
    [P_A] by the wind function, which [calc_b] has divided by [P_A]. *)
Lemma SH_chain_P_A_cancels (P P' a s p w : R) :
  P <> 0 -> P' <> 0 -> SH_chain P a s p w = SH_chain P' a s p w.
Proof.
  intros HP HP'. unfold SH_chain, fu_chain.
  generalize (zeta_chain a w) (rho_a_at p a). intros z rho.
  unfold SH_at, fu_at, b_at, RHO_W, K, Z_A, Z_0. rsimp.
  generalize (ln (10000 * / 10 / (1 * / 100))). intros l. unfold Rdiv.
  generalize (/ l ^ 2). intros k. field. split; assumption.
Qed.

(** The latent heat is inversely proportional to the standard pressure. *)
Lemma LH_chain_P_A (P a s p q w : R) :
  P <> 0 -> LH_chain P a s p q w = LH_chain 1 a s p q w / P.
Proof.
  intros HP. unfold LH_chain, fu_chain.
  generalize (zeta_chain a w) (rho_a_at p a)
             (e_a_at (rh_at p q a) (e_sat_at a)) (e_sat_at s).
  intros z rho ea es.
  unfold LH_at, fu_at, b_at, RHO_W, K, Z_A, Z_0. rsimp.
  generalize (ln (10000 * / 10 / (1 * / 100))). intros l. unfold Rdiv.
  generalize (/ l ^ 2). intros k. field. exact HP.
Qed.

Lemma LH_chain_P_A_differs (P P' a s p q w : R) :
  P <> 0 -> P' <> 0 -> P <> P' ->
  LH_chain P a s p q w <> 0 ->
  LH_chain P a s p q w <> LH_chain P' a s p q w.
Proof.
  intros HP HP' Hne. rewrite (LH_chain_P_A a s p q w HP), (LH_chain_P_A a s p q w HP').
  generalize (LH_chain 1 a s p q w). intros C HC E.
  assert (HC0 : C <> 0) by (intros ->; apply HC; unfold Rdiv; ring).
  apply Hne. apply (Rmult_eq_reg_l (C / (P * P'))).
  - transitivity (C / P'); [field; auto | rewrite <- E; field; auto].
  - unfold Rdiv. nonzero.
Qed.

Variables (P_A_500 P_A_30 : grid R) (gdal_Open : string -> option (grid R)).

(** The same inputs evaluated at both resolutions. *)
Lemma both_resolutions (air snow p q w d ra500 ra30 : grid R) (r c : nat) :
  gdal_Open (afd_fn 500) = Some ra500 -> gdal_Open (afd_fn 30) = Some ra30 ->
  has_shape ra500 r c -> has_shape ra30 r c ->
  has_shape P_A_500 r c -> has_shape P_A_30 r c ->
  has_shape air r c -> has_shape snow r c -> has_shape p r c ->
  has_shape q r c -> has_shape w r c -> has_shape d r c ->
  exists s500 s30 : self,
    init P_A_500 P_A_30 gdal_Open air snow p q w d 500 = Ok s500 /\
    init P_A_500 P_A_30 gdal_Open air snow p q w d 30 = Ok s30 /\
    forall i j, (i < r)%nat -> (j < c)%nat ->
      cell (b s500) i j = b_at (cell P_A_500 i j) (cell (rho_a s500) i j) /\
      cell (b s30) i j = b_at (cell P_A_30 i j) (cell (rho_a s30) i j) /\
      cell (LH s500) i j
      = LH_chain (cell P_A_500 i j) (cell air i j) (cell snow i j)
                 (cell p i j) (cell q i j) (cell w i j) /\
      cell (LH s30) i j
      = LH_chain (cell P_A_30 i j) (cell air i j) (cell snow i j)
                 (cell p i j) (cell q i j) (cell w i j) /\
      cell (SH s500) i j
      = SH_chain (cell P_A_500 i j) (cell air i j) (cell snow i j)
                 (cell p i j) (cell w i j) /\
      cell (SH s30) i j
      = SH_chain (cell P_A_30 i j) (cell air i j) (cell snow i j)
                 (cell p i j) (cell w i j).
Proof.
  intros Ho500 Ho30 Hr500 Hr30 HP500 HP30 Hair Hsnow Hp Hq Hw Hd.
  destruct (init_evaluated P_A_500 P_A_30 gdal_Open 500 Ho500 Hr500 HP500
              Hair Hsnow Hp Hq Hw Hd) as (s500 & E500 & St500 & Ev500).
  destruct (init_evaluated P_A_500 P_A_30 gdal_Open 30 Ho30 Hr30 HP30
              Hair Hsnow Hp Hq Hw Hd) as (s30 & E30 & St30 & Ev30).
  change (P_A_of P_A_500 P_A_30 500) with P_A_500 in Ev500.
  change (P_A_of P_A_500 P_A_30 30) with P_A_30 in Ev30.
  exists s500, s30. split; [exact E500 |]. split; [exact E30 |].
  intros i j Hi Hj.
  destruct (evaluated_fluxes Ev500 St500 Hi Hj) as [HL500 HS500].
  destruct (evaluated_fluxes Ev30 St30 Hi Hj) as [HL30 HS30].
  repeat split; try assumption.
  - now apply (is_grid_cell (ev_b Ev500)).
  - now apply (is_grid_cell (ev_b Ev30)).
Qed.

(** C3, as amended.  For the same meteorological grids, the evaluation at
    resolution 500 computes with the [P_A_500] grid and the evaluation at
    resolution 30 with the [P_A_30] grid (in [calc_b] and in [calc_SH]).
    At a cell where the two standard pressures are not zero: if they
    differ and LH is not zero, the two evaluations yield different LH;
    SH is the same in both, the standard pressure cancelling out of it.
    In exact arithmetic, for grids of one shape. *)
Theorem C3_resolution_selects_P_A
    (air snow p q w d ra500 ra30 : grid R) (r c : nat) :
  gdal_Open (afd_fn 500) = Some ra500 -> gdal_Open (afd_fn 30) = Some ra30 ->
  has_shape ra500 r c -> has_shape ra30 r c ->
  has_shape P_A_500 r c -> has_shape P_A_30 r c ->
  has_shape air r c -> has_shape snow r c -> has_shape p r c ->
  has_shape q r c -> has_shape w r c -> has_shape d r c ->
  exists s500 s30 : self,
    init P_A_500 P_A_30 gdal_Open air snow p q w d 500 = Ok s500 /\
    init P_A_500 P_A_30 gdal_Open air snow p q w d 30 = Ok s30 /\
    forall i j, (i < r)%nat -> (j < c)%nat ->
      cell (b s500) i j = b_at (cell P_A_500 i j) (cell (rho_a s500) i j) /\
      cell (b s30) i j = b_at (cell P_A_30 i j) (cell (rho_a s30) i j) /\
      cell (SH s500) i j
      = SH_at (cell P_A_500 i j) (cell (zeta s500) i j) (cell (fu s500) i j)
              (cell air i j) (cell snow i j) /\
      cell (SH s30) i j
      = SH_at (cell P_A_30 i j) (cell (zeta s30) i j) (cell (fu s30) i j)
              (cell air i j) (cell snow i j) /\
      (cell P_A_500 i j <> 0 -> cell P_A_30 i j <> 0 ->
       (cell P_A_500 i j <> cell P_A_30 i j -> cell (LH s500) i j <> 0 ->
        cell (LH s500) i j <> cell (LH s30) i j) /\
       cell (SH s500) i j = cell (SH s30) i j).
Proof.
  intros Ho500 Ho30 Hr500 Hr30 HP500 HP30 Hair Hsnow Hp Hq Hw Hd.
  destruct (init_evaluated P_A_500 P_A_30 gdal_Open 500 Ho500 Hr500 HP500
              Hair Hsnow Hp Hq Hw Hd) as (s500 & E500 & St500 & Ev500).
  destruct (init_evaluated P_A_500 P_A_30 gdal_Open 30 Ho30 Hr30 HP30
              Hair Hsnow Hp Hq Hw Hd) as (s30 & E30 & St30 & Ev30).
  change (P_A_of P_A_500 P_A_30 500) with P_A_500 in Ev500.
  change (P_A_of P_A_500 P_A_30 30) with P_A_30 in Ev30.
  exists s500, s30. split; [exact E500 |]. split; [exact E30 |].
  intros i j Hi Hj.
  destruct (evaluated_fluxes Ev500 St500 Hi Hj) as [HL500 HS500].
  destruct (evaluated_fluxes Ev30 St30 Hi Hj) as [HL30 HS30].
  split; [now apply (is_grid_cell (ev_b Ev500)) |].
  split; [now apply (is_grid_cell (ev_b Ev30)) |].
  split.
  { rewrite (is_grid_cell (ev_SH Ev500)) by assumption.
    destruct St500 as (-> & -> & _). reflexivity. }
  split.
  { rewrite (is_grid_cell (ev_SH Ev30)) by assumption.
    destruct St30 as (-> & -> & _). reflexivity. }
  intros Hn500 Hn30. split.
  - intros Hne HLH. rewrite HL500 in *. rewrite HL30.
    now apply LH_chain_P_A_differs.
  - rewrite HS500, HS30. now apply SH_chain_P_A_cancels.
Qed.
End Resolutions.

(** ** Shapes and resolutions that the evaluator does not check *)

Section Unchecked.
Context {T : Type} `{Arith T}.
Import snow17.
Variables (P_A_500 P_A_30 : grid T) (gdal_Open : string -> option (grid T)).

Lemma bdim_stretch (m n : nat) : n = m \/ n = 1%nat -> bdim m n = Some m.
Proof.
  intros [-> | ->]; [apply bdim_same |]. unfold bdim.
  destruct (Nat.eqb_spec m 1) as [-> | Hm]; [reflexivity |].
  cbn. destruct (Nat.eqb_spec m 1); [contradiction | reflexivity].
Qed.

Lemma bidx_stretch (m n i : nat) : n = m \/ n = 1%nat -> (i < m)%nat -> (bidx n i < n)%nat.
Proof.
  intros [-> | ->] Hi; [now rewrite bidx_lt | cbn; lia].
Qed.

(** A right operand whose dimensions are those of the left one or 1 is
    stretched to the shape of the left one. *)
Lemma cw_bin_bcast (f : T -> T -> T) (x y : rgrid T) r c r' c' hx hy :
  cellwise x r c hx -> cellwise y r' c' hy ->
  r' = r \/ r' = 1%nat -> c' = c \/ c' = 1%nat ->
  cellwise (np_bin f x y) r c (fun i j => f (hx i j) (hy (bidx r' i) (bidx c' j))).
Proof.
  intros (a & -> & [Har Hac] & Ha) (b' & -> & [Hbr Hbc] & Hb) Hr Hc.
  unfold np_bin, bind, broadcast2.
  rewrite Har, Hac, Hbr, Hbc, (bdim_stretch Hr), (bdim_stretch Hc).
  eexists. split; [reflexivity |].
  split; [split; reflexivity |]. cbn. intros i j Hi Hj.
  rewrite !(bidx_lt (m := r)), !(bidx_lt (m := c)) by assumption.
  rewrite Ha by assumption.
  rewrite Hb by (eapply bidx_stretch; eassumption). reflexivity.
Qed.

Ltac shapes := first [ assumption | eapply is_grid_shape; eassumption ].

Ltac run lem g :=
  let E := fresh "E" in
  edestruct lem as (g & E & ?); [ shapes .. | rewrite E; cbn [bind] ].

(** The first eleven steps, for a [snow_tmp] grid of any shape [r'] by
    [c'] against grids that are [r] by [c]: they all return, [snow_tmp]
    meeting no other grid before [calc_LH]. *)
Lemma init_prefix (air snow p q w d : grid T) (rs : Z) (raster : grid T) r c r' c' :
  gdal_Open (afd_fn rs) = Some raster ->
  has_shape raster r c -> has_shape (P_A_of P_A_500 P_A_30 rs) r c ->
  has_shape air r c -> has_shape snow r' c' -> has_shape p r c ->
  has_shape q r c -> has_shape w r c -> has_shape d r c ->
  exists F g_rh g_esa g_ess g_ea g_rho g_b g_fu g_dhe g_zeta g_atm g_we : grid T,
    ((arr raster :/ lit 100.0)%np = Ok F /\
     calc_relative_humidity p q air = Ok g_rh /\
     calc_air_saturate_vapor_pressure air = Ok g_esa /\
     calc_snow_saturate_vapor_pressure snow = Ok g_ess /\
     calc_air_vapor_pressure g_rh g_esa = Ok g_ea /\
     calc_air_density p air = Ok g_rho /\
     calc_b P_A_500 P_A_30 rs g_rho = Ok g_b /\
     calc_FU g_b w = Ok g_fu /\
     calc_exchange_coefficient w = Ok g_dhe /\
     calc_unstable_correction g_dhe w air = Ok g_zeta /\
     calc_atm_emissivity d air = Ok g_atm /\
     calc_weighted_emissivity F g_atm = Ok g_we) /\
    (has_shape g_zeta r c /\ has_shape g_fu r c /\ has_shape g_ea r c /\
     has_shape g_ess r' c' /\ has_shape g_atm r c /\ has_shape g_we r c) /\
    init P_A_500 P_A_30 gdal_Open air snow p q w d rs
    = (v_LH <- calc_LH g_zeta g_fu g_ea g_ess ;;
       v_SH <- calc_SH P_A_500 P_A_30 rs g_zeta g_fu air snow ;;
       v_CDLW <- calc_DLW d g_we g_atm ;;
       v_ULW <- calc_ULW snow ;;
       Ok (mkSelf air snow p q w d F rs g_rh g_esa g_ess g_ea g_rho g_b g_fu
             g_dhe g_zeta g_atm g_we v_LH v_SH v_CDLW v_ULW))%py.
Proof.
  intros Hopen Hra HPA Hair Hsnow Hp Hq Hw Hd.
  unfold init. fold (afd_fn rs). rewrite Hopen.
  assert (HF : cellwise (arr raster :/ lit 100.0)%np r c
                 (fun i j => (cell raster i j / lit 100.0)%fl)) by cw.
  destruct HF as (F & EF & HF). rewrite EF. cbn [bind].
  run (@calc_relative_humidity_cw T _ r c p q air) g_rh.
  run (@calc_air_saturate_vapor_pressure_cw T _ r c air) g_esa.
  run (@calc_snow_saturate_vapor_pressure_cw T _ r' c' snow) g_ess.
  run (@calc_air_vapor_pressure_cw T _ r c g_rh g_esa) g_ea.
  run (@calc_air_density_cw T _ r c p air) g_rho.
  run (@calc_b_cw T _ r c P_A_500 P_A_30 rs g_rho) g_b.
  run (@calc_FU_cw T _ r c g_b w) g_fu.
  run (@calc_exchange_coefficient_cw T _ r c w) g_dhe.
  run (@calc_unstable_correction_cw T _ r c g_dhe w air) g_zeta.
  run (@calc_atm_emissivity_cw T _ r c d air) g_atm.
  run (@calc_weighted_emissivity_cw T _ r c F g_atm) g_we.
  exists F, g_rh, g_esa, g_ess, g_ea, g_rho, g_b, g_fu, g_dhe, g_zeta, g_atm, g_we.
  split; [repeat split; assumption |].
  split; [repeat split; shapes |]. reflexivity.
Qed.

(** Solves [cellwise e r c _] when some right operands are stretched. *)
Ltac cwb :=
  first [ eapply cw_arr; eassumption
        | eapply cw_sl; cwb
        | eapply cw_sr; cwb
        | eapply cw_un; cwb
        | eapply cw_bin; [cwb | cwb]
        | eapply cw_bin_bcast; [cwb | cwb | eassumption | eassumption] ].

(** A [snow_tmp] grid whose dimensions are those of the other grids or 1
    is broadcast: the evaluation returns. *)
Lemma init_snow_broadcast (air snow p q w d : grid T) (rs : Z) (raster : grid T)
    r c r' c' :
  gdal_Open (afd_fn rs) = Some raster ->
  has_shape raster r c -> has_shape (P_A_of P_A_500 P_A_30 rs) r c ->
  has_shape air r c -> has_shape snow r' c' -> has_shape p r c ->
  has_shape q r c -> has_shape w r c -> has_shape d r c ->
  r' = r \/ r' = 1%nat -> c' = c \/ c' = 1%nat ->
  exists s : self,
    init P_A_500 P_A_30 gdal_Open air snow p q w d rs = Ok s /\
    stores s air snow p q w d rs /\
    has_shape (LH s) r c /\ has_shape (SH s) r c /\
    has_shape (CDLW s) r c /\ has_shape (ULW s) r' c'.
Proof.
  intros Hopen Hra HPA Hair Hsnow Hp Hq Hw Hd Hr Hc.
  destruct (init_prefix Hopen Hra HPA Hair Hsnow Hp Hq Hw Hd)
    as (F & g_rh & g_esa & g_ess & g_ea & g_rho & g_b & g_fu & g_dhe & g_zeta
        & g_atm & g_we & _ & (Hzs & Hfs & Heas & Hess & Hatms & Hwes) & ->).
  assert (HLH : exists h, cellwise (calc_LH g_zeta g_fu g_ea g_ess) r c h)
    by (eexists; unfold calc_LH; cwb).
  destruct HLH as (h1 & v_LH & -> & HLHs & _). cbn [bind].
  assert (HSH : exists h, cellwise
                  (calc_SH P_A_500 P_A_30 rs g_zeta g_fu air snow) r c h).
  { unfold calc_SH, P_A_of in *. destruct (rs =? 500)%Z; eexists; cwb. }
  destruct HSH as (h2 & v_SH & -> & HSHs & _). cbn [bind].
  run (@calc_DLW_cw T _ r c d g_we g_atm) v_CDLW.
  run (@calc_ULW_cw T _ r' c' snow) v_ULW.
  eexists. split; [reflexivity |]. cbn.
  split; [repeat split |]. repeat split; try shapes; try apply HLHs; apply HSHs.
Qed.

(** A [snow_tmp] grid that cannot be broadcast against the other grids
    makes [calc_LH], the first operation to combine it with them, raise. *)
Lemma calc_LH_incompatible (z f ea es : grid T) r c r' c' :
  has_shape z r c -> has_shape f r c -> has_shape ea r c -> has_shape es r' c' ->
  bdim r r' = None \/ bdim c c' = None ->
  calc_LH z f ea es = Err ValueError.
Proof.
  intros Hz Hf Hea [Hesr Hesc] Hbad. pose proof Hea as [Hear Heac].
  unfold calc_LH.
  assert (HX : exists h, cellwise (arr z :* L_S :* RHO_W :/ lit 10.0 * arr f)%np r c h)
    by (eexists; cwb).
  destruct HX as (h & g & -> & _).
  rewrite (@np_bin_incompatible T fsub ea es)
    by (rewrite Hear, Heac, Hesr, Hesc; exact Hbad).
  reflexivity.
Qed.

(** C6, as amended.  The evaluator does not check shapes before the
    chain: numpy checks them, operation by operation, under its
    broadcasting rule (two dimensions agree when they are equal or one of
    them is 1).  For a [snow_tmp] grid of shape [r'] by [c'] and all other
    grids of shape [r] by [c]: when each dimension of [snow_tmp] is that
    of the others or is 1, the evaluation returns, [snow_tmp] being
    broadcast (LH and SH are [r] by [c], ULW is [r'] by [c']); when a
    dimension differs and neither is 1, the first eleven steps return and
    the evaluation then fails in [calc_LH], with numpy's ValueError. *)
Theorem C6_shapes_checked_by_numpy_only
    (air snow p q w d : grid T) (rs : Z) (raster : grid T) (r c r' c' : nat) :
  gdal_Open (afd_fn rs) = Some raster ->
  has_shape raster r c -> has_shape (P_A_of P_A_500 P_A_30 rs) r c ->
  has_shape air r c -> has_shape snow r' c' -> has_shape p r c ->
  has_shape q r c -> has_shape w r c -> has_shape d r c ->
  ((r' = r \/ r' = 1%nat) /\ (c' = c \/ c' = 1%nat) ->
   exists s : self,
     init P_A_500 P_A_30 gdal_Open air snow p q w d rs = Ok s /\
     has_shape (LH s) r c /\ has_shape (SH s) r c /\ has_shape (ULW s) r' c') /\
  ((r' <> r /\ r' <> 1%nat /\ r <> 1%nat) \/ (c' <> c /\ c' <> 1%nat /\ c <> 1%nat) ->
   init P_A_500 P_A_30 gdal_Open air snow p q w d rs = Err ValueError /\
   exists F g_rh g_esa g_ess g_ea g_rho g_b g_fu g_dhe g_zeta g_atm g_we : grid T,
     (arr raster :/ lit 100.0)%np = Ok F /\
     calc_relative_humidity p q air = Ok g_rh /\
     calc_air_saturate_vapor_pressure air = Ok g_esa /\
     calc_snow_saturate_vapor_pressure snow = Ok g_ess /\
     calc_air_vapor_pressure g_rh g_esa = Ok g_ea /\
     calc_air_density p air = Ok g_rho /\
     calc_b P_A_500 P_A_30 rs g_rho = Ok g_b /\
     calc_FU g_b w = Ok g_fu /\
     calc_exchange_coefficient w = Ok g_dhe /\
     calc_unstable_correction g_dhe w air = Ok g_zeta /\
     calc_atm_emissivity d air = Ok g_atm /\
     calc_weighted_emissivity F g_atm = Ok g_we /\
     calc_LH g_zeta g_fu g_ea g_ess = Err ValueError).
Proof.
  intros Hopen Hra HPA Hair Hsnow Hp Hq Hw Hd. split.
  - intros [Hr Hc].
    destruct (init_snow_broadcast Hopen Hra HPA Hair Hsnow Hp Hq Hw Hd Hr Hc)
      as (s & E & _ & HL & HS & _ & HU).
    exists s. repeat split; try assumption; try apply HL; try apply HS; apply HU.
  - intros Hbad.
    assert (Hb : bdim r r' = None \/ bdim c c' = None).
    { destruct Hbad as [(H1 & H2 & H3) | (H1 & H2 & H3)];
        [left | right]; apply bdim_incompatible; auto. }
    destruct (init_prefix Hopen Hra HPA Hair Hsnow Hp Hq Hw Hd)
      as (F & g_rh & g_esa & g_ess & g_ea & g_rho & g_b & g_fu & g_dhe & g_zeta
          & g_atm & g_we & Hsteps & (Hzs & Hfs & Heas & Hess & Hatms & Hwes) & E).
    pose proof (calc_LH_incompatible Hzs Hfs Heas Hess Hb) as HLH.
    split; [rewrite E, HLH; reflexivity |].
    exists F, g_rh, g_esa, g_ess, g_ea, g_rho, g_b, g_fu, g_dhe, g_zeta, g_atm, g_we.
    repeat split; try apply Hsteps; exact HLH.
Qed.

(** C5, as amended.  The evaluator does not check the resolution.  For
    every value other than 500 (so for every value outside 500 and 30):
    if the canopy raster named after the value cannot be opened,
    construction fails with AttributeError before any step of the chain;
    if it can, construction goes on as it does for resolution 30, with the
    [P_A_30] grid, and, the grids being of one shape, returns. *)
Theorem C5_resolution_is_not_checked
    (air snow p q w d : grid T) (rs : Z) :
  rs <> 500%Z ->
  (gdal_Open (afd_fn rs) = None ->
   init P_A_500 P_A_30 gdal_Open air snow p q w d rs = Err AttributeError) /\
  (forall (raster : grid T) (r c : nat),
     gdal_Open (afd_fn rs) = Some raster ->
     has_shape raster r c -> has_shape P_A_30 r c ->
     has_shape air r c -> has_shape snow r c -> has_shape p r c ->
     has_shape q r c -> has_shape w r c -> has_shape d r c ->
     exists s : self,
       init P_A_500 P_A_30 gdal_Open air snow p q w d rs = Ok s /\
       res s = rs /\
       evaluated P_A_30 raster s r c).
Proof.
  intros Hrs. split; [apply init_no_raster |].
  intros raster r c Hopen Hra HPA Hair Hsnow Hp Hq Hw Hd.
  assert (HPA' : P_A_of P_A_500 P_A_30 rs = P_A_30).
  { unfold P_A_of. destruct (Z.eqb_spec rs 500); [contradiction | reflexivity]. }
  rewrite <- HPA' in HPA.
  destruct (init_evaluated P_A_500 P_A_30 gdal_Open rs Hopen Hra HPA
              Hair Hsnow Hp Hq Hw Hd) as (s & E & St & Ev).
  exists s. split; [exact E |]. split; [apply St |].
  now rewrite HPA' in Ev.
Qed.
End Unchecked.

(** ** The claims at concrete inputs *)

(** Discharges a hypothesis about a concrete uniform grid. *)
Ltac concrete :=
  first [ reflexivity | split; reflexivity | lia | cbn; lia
        | intros; cbn; unfold Q2R; cbn; lra ].

Section Concrete.
Local Open Scope R_scope.
Import snow17.

(** C2, counterexample.  On a one-cell grid of the scenario, the cell of
    ULW is more than 3.8 W/m2 away from 305.5. *)
Lemma C2_ULW_is_not_305_5 :
  exists s : self,
    init (uniform 1 1 800) (uniform 1 1 900)
         (one_raster (afd_fn 500) (uniform 1 1 0))
         (uniform 1 1 0) (uniform 1 1 0) (uniform 1 1 87000) (uniform 1 1 0.003)
         (uniform 1 1 2) (uniform 1 1 250) 500 = Ok s /\
    3.8 < Rabs (cell (ULW s) 0 0 - 305.5).
Proof.
  destruct (@ULW_of_snow_at_zero (uniform 1 1 800) (uniform 1 1 900)
              (one_raster (afd_fn 500) (uniform 1 1 0))
              (uniform 1 1 0) (uniform 1 1 87000) (uniform 1 1 0.003)
              (uniform 1 1 2) (uniform 1 1 250) 500 (uniform 1 1 0) 1 1)
    as (s & E & HU); try concrete.
  exists s. split; [exact E |].
  rewrite (HU 0%nat 0%nat) by lia.
  rewrite Rabs_pos_eq; lra.
Qed.

Lemma C2_uniform_scenario_witness :
  exists s : self,
    init (uniform 1 1 800) (uniform 1 1 900)
         (one_raster (afd_fn 500) (uniform 1 1 0))
         (uniform 1 1 0) (uniform 1 1 0) (uniform 1 1 87000) (uniform 1 1 0.003)
         (uniform 1 1 2) (uniform 1 1 250) 500 = Ok s /\
    cell (LH s) 0 0 = 0 /\ cell (SH s) 0 0 = 0 /\
    309.3 < cell (ULW s) 0 0 < 309.4.
Proof.
  destruct (@C2_uniform_scenario (uniform 1 1 800) (uniform 1 1 900)
              (one_raster (afd_fn 500) (uniform 1 1 0)) (uniform 1 1 0) 1 1)
    as [(s & E & Hcells) _]; try concrete.
  exists s. split; [exact E |].
  destruct (Hcells 0%nat 0%nat) as (_ & HL & HS & _ & HU); [lia | lia |].
  split; [exact HL |]. split; [exact HS | exact HU].
Defined.

(** C3, counterexample.  One cell, standard pressure 800 at resolution 500
    and 900 at resolution 30, air at 5 degrees over snow at 0: LH and SH
    are not zero, and SH is the same at both resolutions. *)
Lemma C3_same_SH_at_both_resolutions :
  exists s500 s30 : self,
    init (uniform 1 1 800) (uniform 1 1 900) (any_raster (uniform 1 1 0))
         (uniform 1 1 5) (uniform 1 1 0) (uniform 1 1 87000) (uniform 1 1 0.003)
         (uniform 1 1 2) (uniform 1 1 250) 500 = Ok s500 /\
    init (uniform 1 1 800) (uniform 1 1 900) (any_raster (uniform 1 1 0))
         (uniform 1 1 5) (uniform 1 1 0) (uniform 1 1 87000) (uniform 1 1 0.003)
         (uniform 1 1 2) (uniform 1 1 250) 30 = Ok s30 /\
    cell (uniform 1 1 800) 0 0 <> cell (uniform 1 1 900) 0 0 /\
    cell (LH s500) 0 0 <> 0 /\
    cell (SH s500) 0 0 <> 0 /\
    cell (SH s500) 0 0 = cell (SH s30) 0 0.
Proof.
  destruct (@both_resolutions (uniform 1 1 800) (uniform 1 1 900)
              (any_raster (uniform 1 1 0))
              (uniform 1 1 5) (uniform 1 1 0) (uniform 1 1 87000) (uniform 1 1 0.003)
              (uniform 1 1 2) (uniform 1 1 250) (uniform 1 1 0) (uniform 1 1 0) 1 1)
    as (s500 & s30 & E500 & E30 & Hcells); try concrete.
  exists s500, s30. split; [exact E500 |]. split; [exact E30 |].
  destruct (Hcells 0%nat 0%nat) as (_ & _ & HL500 & _ & HS500 & HS30); [lia | lia |].
  cbn [uniform np_full cell] in *.
  assert (H800 : Q2R 800 <> 0) by (unfold Q2R; cbn; lra).
  assert (H900 : Q2R 900 <> 0) by (unfold Q2R; cbn; lra).
  assert (H5 : Q2R 5 <> 0) by (unfold Q2R; cbn; lra).
  assert (H2 : Q2R 2 <> 0) by (unfold Q2R; cbn; lra).
  assert (Hz : zeta_chain (Q2R 5) (Q2R 2) <> 0)
    by (unfold zeta_chain; now apply zeta_at_nonzero).
  assert (Hf : fu_chain (Q2R 800) (Q2R 87000) (Q2R 5) (Q2R 2) <> 0).
  { unfold fu_chain. apply fu_at_nonzero; [| exact H2].
    apply b_at_nonzero; [exact H800 |].
    apply rho_a_at_nonzero; unfold Q2R; cbn; lra. }
  split; [unfold Q2R; cbn; lra |].
  split; [| split].
  - rewrite HL500. unfold LH_chain. apply LH_at_nonzero; [exact Hz | exact Hf |].
    rewrite e_a_at_closed, (@e_sat_at_0 (Q2R 0)) by (unfold Q2R; cbn; lra).
    unfold Q2R; cbn; lra.
  - rewrite HS500. unfold SH_chain.
    apply SH_at_nonzero; [exact H800 | exact Hz | exact Hf | unfold Q2R; cbn; lra].
  - rewrite HS500, HS30. now apply SH_chain_P_A_cancels.
Qed.

Lemma C3_resolution_selects_P_A_witness :
  exists s500 s30 : self,
    init (uniform 1 1 800) (uniform 1 1 900) (any_raster (uniform 1 1 0))
         (uniform 1 1 5) (uniform 1 1 0) (uniform 1 1 87000) (uniform 1 1 0.003)
         (uniform 1 1 2) (uniform 1 1 250) 500 = Ok s500 /\
    init (uniform 1 1 800) (uniform 1 1 900) (any_raster (uniform 1 1 0))
         (uniform 1 1 5) (uniform 1 1 0) (uniform 1 1 87000) (uniform 1 1 0.003)
         (uniform 1 1 2) (uniform 1 1 250) 30 = Ok s30 /\
    cell (SH s500) 0 0 = cell (SH s30) 0 0.
Proof.
  destruct (@C3_resolution_selects_P_A (uniform 1 1 800) (uniform 1 1 900)
              (any_raster (uniform 1 1 0))
              (uniform 1 1 5) (uniform 1 1 0) (uniform 1 1 87000) (uniform 1 1 0.003)
              (uniform 1 1 2) (uniform 1 1 250) (uniform 1 1 0) (uniform 1 1 0) 1 1)
    as (s500 & s30 & E500 & E30 & Hcells); try concrete.
  exists s500, s30. split; [exact E500 |]. split; [exact E30 |].
  destruct (Hcells 0%nat 0%nat) as (_ & _ & _ & _ & Hdiff); [lia | lia |].
  apply Hdiff; concrete.
Defined.

Lemma atm_emissivity_at_nonzero (dl a : R) :
  dl <> 0 -> a + 273.16 <> 0 -> atm_emissivity_at dl a <> 0.
Proof.
  intros Hd Ha. unfold atm_emissivity_at. rsimp.
  assert (H4 : (a + 273.16) ^ 4 <> 0) by now apply pow_nonzero.
  unfold Rdiv. apply Rmult_integral_contrapositive_currified; [exact Hd |].
  apply Rinv_neq_0_compat.
  repeat apply Rmult_integral_contrapositive_currified; try exact H4; try lra.
Qed.

Lemma C8_zeta_independent_of_air_tmp_witness :
  exists s1 s2 : self,
    init (uniform 1 1 800) (uniform 1 1 900)
         (one_raster (afd_fn 500) (uniform 1 1 0))
         (uniform 1 1 5) (uniform 1 1 0) (uniform 1 1 87000) (uniform 1 1 0.003)
         (uniform 1 1 2) (uniform 1 1 250) 500 = Ok s1 /\
    init (uniform 1 1 800) (uniform 1 1 900)
         (one_raster (afd_fn 500) (uniform 1 1 0))
         (uniform 1 1 (-3)) (uniform 1 1 0) (uniform 1 1 87000) (uniform 1 1 0.003)
         (uniform 1 1 2) (uniform 1 1 250) 500 = Ok s2 /\
    cell (zeta s1) 0 0 = cell (zeta s2) 0 0.
Proof.
  destruct (@C8_zeta_independent_of_air_tmp (uniform 1 1 800) (uniform 1 1 900)
              (one_raster (afd_fn 500) (uniform 1 1 0))
              (uniform 1 1 5) (uniform 1 1 (-3)) (uniform 1 1 0)
              (uniform 1 1 87000) (uniform 1 1 0.003)
              (uniform 1 1 2) (uniform 1 1 250) 500 (uniform 1 1 0) 1 1)
    as (s1 & s2 & E1 & E2 & _ & Hcells); try concrete.
  exists s1, s2. split; [exact E1 |]. split; [exact E2 |].
  apply Hcells; lia.
Defined.


(** C5, counterexample.  Resolution 100 is accepted: with a canopy raster
    of that name, construction returns, computed with the [P_A_30] grid. *)
Lemma C5_resolution_100_is_accepted :
  exists s : self,
    init (uniform 1 1 800) (uniform 1 1 900)
         (one_raster (afd_fn 100) (uniform 1 1 0))
         (uniform 1 1 5) (uniform 1 1 0) (uniform 1 1 87000) (uniform 1 1 0.003)
         (uniform 1 1 2) (uniform 1 1 250) 100 = Ok s /\
    res s = 100%Z /\
    cell (b s) 0 0 = b_at (cell (uniform 1 1 900) 0 0) (cell (rho_a s) 0 0).
Proof.
  destruct (@init_evaluated R _ (uniform 1 1 800) (uniform 1 1 900)
              (one_raster (afd_fn 100) (uniform 1 1 0))
              (uniform 1 1 5) (uniform 1 1 0) (uniform 1 1 87000) (uniform 1 1 0.003)
              (uniform 1 1 2) (uniform 1 1 250) 100 (uniform 1 1 0) 1 1)
    as (s & E & St & Ev); try concrete.
  exists s. split; [exact E |]. split; [apply St |].
  apply (is_grid_cell (ev_b Ev)); lia.
Qed.

Lemma C5_resolution_is_not_checked_witness :
  exists s : self,
    init (uniform 1 1 800) (uniform 1 1 900)
         (one_raster (afd_fn 100) (uniform 1 1 0))
         (uniform 1 1 5) (uniform 1 1 0) (uniform 1 1 87000) (uniform 1 1 0.003)
         (uniform 1 1 2) (uniform 1 1 250) 100 = Ok s /\
    res s = 100%Z.
Proof.
  destruct (@C5_resolution_is_not_checked R _ (uniform 1 1 800) (uniform 1 1 900)
              (one_raster (afd_fn 100) (uniform 1 1 0))
              (uniform 1 1 5) (uniform 1 1 0) (uniform 1 1 87000) (uniform 1 1 0.003)
              (uniform 1 1 2) (uniform 1 1 250) 100 ltac:(lia)) as [_ Hok].
  destruct (Hok (uniform 1 1 0) 1%nat 1%nat) as (s & E & Hres & _); try concrete.
  exists s. split; [exact E | exact Hres].
Defined.

(** C6, counterexample.  A 1 by 1 [snow_tmp] grid against 2 by 2 grids:
    the dimensions differ and the evaluation returns, LH being 2 by 2. *)
Lemma C6_one_cell_snow_tmp_is_broadcast :
  exists s : self,
    init (uniform 2 2 800) (uniform 2 2 900)
         (one_raster (afd_fn 500) (uniform 2 2 0))
         (uniform 2 2 5) (uniform 1 1 0) (uniform 2 2 87000) (uniform 2 2 0.003)
         (uniform 2 2 2) (uniform 2 2 250) 500 = Ok s /\
    shape (snow_tmp s) = (1%nat, 1%nat) /\
    shape (air_tmp s) = (2%nat, 2%nat) /\
    shape (LH s) = (2%nat, 2%nat).
Proof.
  destruct (@init_snow_broadcast R _ (uniform 2 2 800) (uniform 2 2 900)
              (one_raster (afd_fn 500) (uniform 2 2 0))
              (uniform 2 2 5) (uniform 1 1 0) (uniform 2 2 87000) (uniform 2 2 0.003)
              (uniform 2 2 2) (uniform 2 2 250) 500 (uniform 2 2 0) 2 2 1 1)
    as (s & E & St & HLH & _); try concrete; try (right; reflexivity).
  exists s. split; [exact E |]. stored St.
  rewrite Es, Ea. destruct HLH as [HLr HLc].
  unfold shape. rewrite HLr, HLc. repeat split.
Qed.

Lemma C6_shapes_checked_by_numpy_only_witness :
  init (uniform 2 2 800) (uniform 2 2 900)
       (one_raster (afd_fn 500) (uniform 2 2 0))
       (uniform 2 2 5) (uniform 3 3 0) (uniform 2 2 87000) (uniform 2 2 0.003)
       (uniform 2 2 2) (uniform 2 2 250) 500 = Err ValueError.
Proof.
  destruct (@C6_shapes_checked_by_numpy_only R _ (uniform 2 2 800) (uniform 2 2 900)
              (one_raster (afd_fn 500) (uniform 2 2 0))
              (uniform 2 2 5) (uniform 3 3 0) (uniform 2 2 87000) (uniform 2 2 0.003)
              (uniform 2 2 2) (uniform 2 2 250) 500 (uniform 2 2 0) 2 2 3 3)
    as [_ Hbad]; try concrete.
  apply Hbad. left. lia.
Defined.
End Concrete.

(** * Further properties of the evaluator *)

(** ** Which errors the chain raises *)

Create HintDb numpy_only.

Section ChainErrors.
Context {T : Type} `{Arith T}.
Import snow17.

Lemma numpy_only_Ok {A : Type} (a : A) : numpy_only (Ok a).
Proof. intros e He. discriminate. Qed.

Lemma numpy_only_Err_ValueError {A : Type} : numpy_only (@Err A ValueError).
Proof. intros e He. injection He as <-. now left. Qed.

Lemma numpy_only_Err_IndexError {A : Type} : numpy_only (@Err A IndexError).
Proof. intros e He. injection He as <-. now right. Qed.

Lemma numpy_only_bind {A B : Type} (m : result A) (k : A -> result B) :
  numpy_only m -> (forall a, numpy_only (k a)) -> numpy_only (bind m k).
Proof.
  intros Hm Hk e. destruct m as [a | e']; cbn.
  - apply Hk.
  - intros He. injection He as <-. now apply Hm.
Qed.

Lemma numpy_only_fmap {A B : Type} (f : A -> B) (m : result A) :
  numpy_only m -> numpy_only (fmap f m).
Proof.
  intros Hm. apply numpy_only_bind; [exact Hm |]. intros a. apply numpy_only_Ok.
Qed.

Lemma numpy_only_arr (g : grid T) : numpy_only (arr g).
Proof. apply numpy_only_Ok. Qed.

Lemma numpy_only_broadcast2 (f : T -> T -> T) (a b' : grid T) :
  numpy_only (broadcast2 f a b').
Proof.
  unfold broadcast2.
  destruct (bdim (nrows a) (nrows b')), (bdim (ncols a) (ncols b'));
    first [apply numpy_only_Ok | apply numpy_only_Err_ValueError].
Qed.

Lemma numpy_only_np_bin (f : T -> T -> T) (x y : rgrid T) :
  numpy_only x -> numpy_only y -> numpy_only (np_bin f x y).
Proof.
  intros Hx Hy. unfold np_bin.
  apply numpy_only_bind; [exact Hx |]. intros a.
  apply numpy_only_bind; [exact Hy |]. intros b'.
  apply numpy_only_broadcast2.
Qed.

Lemma numpy_only_np_sl (f : T -> T -> T) (s : T) (y : rgrid T) :
  numpy_only y -> numpy_only (np_sl f s y).
Proof. apply numpy_only_fmap. Qed.

Lemma numpy_only_np_sr (f : T -> T -> T) (x : rgrid T) (s : T) :
  numpy_only x -> numpy_only (np_sr f x s).
Proof. apply numpy_only_fmap. Qed.

Lemma numpy_only_np_un (f : T -> T) (x : rgrid T) :
  numpy_only x -> numpy_only (np_un f x).
Proof. apply numpy_only_fmap. Qed.

Lemma numpy_only_take (g : grid T) (idx : list (nat * nat)) : numpy_only (take g idx).
Proof.
  induction idx as [| ij idx IH]; cbn; [apply numpy_only_Ok |].
  destruct (in_bounds g ij); [| apply numpy_only_Err_IndexError].
  apply numpy_only_bind; [exact IH |]. intros vs. apply numpy_only_Ok.
Qed.

Lemma numpy_only_put (g : grid T) (idx : list (nat * nat)) (vals : list T) :
  numpy_only (put g idx vals).
Proof.
  unfold put. destruct (negb _); [apply numpy_only_Err_IndexError |].
  destruct (negb _); [apply numpy_only_Err_ValueError | apply numpy_only_Ok].
Qed.

Lemma numpy_only_broadcast1 (f : T -> T -> T) (u v : list T) :
  numpy_only (broadcast1 f u v).
Proof.
  unfold broadcast1. destruct (List.length u =? List.length v)%nat;
    [apply numpy_only_Ok |].
  destruct u as [| x [| x' u]]; destruct v as [| y [| y' v]];
    first [apply numpy_only_Ok | apply numpy_only_Err_ValueError].
Qed.

Lemma numpy_only_v_bin (f : T -> T -> T) (x y : rvec T) :
  numpy_only x -> numpy_only y -> numpy_only (v_bin f x y).
Proof.
  intros Hx Hy. unfold v_bin.
  apply numpy_only_bind; [exact Hx |]. intros u.
  apply numpy_only_bind; [exact Hy |]. intros v.
  apply numpy_only_broadcast1.
Qed.

Lemma numpy_only_v_sl (f : T -> T -> T) (s : T) (y : rvec T) :
  numpy_only y -> numpy_only (v_sl f s y).
Proof. apply numpy_only_fmap. Qed.

Lemma numpy_only_v_un (f : T -> T) (x : rvec T) :
  numpy_only x -> numpy_only (v_un f x).
Proof. apply numpy_only_fmap. Qed.

Hint Resolve numpy_only_Ok numpy_only_arr numpy_only_np_bin numpy_only_np_sl
  numpy_only_np_sr numpy_only_np_un numpy_only_take numpy_only_put
  numpy_only_v_bin numpy_only_v_sl numpy_only_v_un
  numpy_only_broadcast2 numpy_only_broadcast1 : numpy_only.

(** Every step of the chain, on any grids, returns or raises an error of
    numpy. *)
Ltac chain_step :=
  repeat (first
    [ apply numpy_only_bind; [| intros ?]
    | progress auto 20 with numpy_only ]).

Lemma numpy_only_calc_unstable_correction (d w air : grid T) :
  numpy_only (calc_unstable_correction d w air).
Proof.
  unfold calc_unstable_correction, gamma_of, R_i_of, np_pow, v_pow, v_abs.
  chain_step.
Qed.

Lemma numpy_only_calc_b (P500 P30 : grid T) (rs : Z) (rho : grid T) :
  numpy_only (calc_b P500 P30 rs rho).
Proof. unfold calc_b. destruct (rs =? 500)%Z; auto 20 with numpy_only. Qed.

Lemma numpy_only_calc_SH (P500 P30 : grid T) (rs : Z) (z f air snow : grid T) :
  numpy_only (calc_SH P500 P30 rs z f air snow).
Proof. unfold calc_SH. destruct (rs =? 500)%Z; auto 20 with numpy_only. Qed.

Variables (P_A_500 P_A_30 : grid T) (gdal_Open : string -> option (grid T)).

(** X1.  Whatever the inputs, [__init__] fails with AttributeError exactly
    when the canopy raster named after the resolution cannot be opened:
    none of the fifteen steps raises it, their only errors being numpy's
    ValueError and IndexError. *)
Theorem X1_AttributeError_iff_raster_missing
    (air snow p q w d : grid T) (rs : Z) :
  (init P_A_500 P_A_30 gdal_Open air snow p q w d rs = Err AttributeError
   <-> gdal_Open (afd_fn rs) = None) /\
  (forall raster e,
     gdal_Open (afd_fn rs) = Some raster ->
     init P_A_500 P_A_30 gdal_Open air snow p q w d rs = Err e ->
     e = ValueError \/ e = IndexError).
Proof.
  assert (Hchain : forall raster,
    gdal_Open (afd_fn rs) = Some raster ->
    numpy_only (init P_A_500 P_A_30 gdal_Open air snow p q w d rs)).
  { intros raster Hopen. unfold init. fold (afd_fn rs). rewrite Hopen.
    unfold calc_relative_humidity, calc_air_saturate_vapor_pressure,
      calc_snow_saturate_vapor_pressure, calc_air_vapor_pressure,
      calc_air_density, calc_FU, calc_exchange_coefficient,
      calc_atm_emissivity, calc_weighted_emissivity, calc_LH, calc_DLW,
      calc_ULW, np_exp, np_pow.
    repeat (first
      [ solve [ auto 20 using numpy_only_calc_unstable_correction,
                  numpy_only_calc_b, numpy_only_calc_SH with numpy_only ]
      | apply numpy_only_bind; [| intros ?] ]). }
  split.
  - split.
    + intros Herr. destruct (gdal_Open (afd_fn rs)) as [raster |] eqn:Hopen;
        [| reflexivity].
      destruct (Hchain raster eq_refl _ Herr); discriminate.
    + apply init_no_raster.
  - intros raster e Hopen Herr. exact (Hchain raster Hopen _ Herr).
Qed.
End ChainErrors.

(** ** Grids of one shape: the evaluation is cell by cell *)

Section CellByCell.
Context {T : Type} `{Arith T}.
Import snow17.
Variables (P_A_500 P_A_30 : grid T) (gdal_Open : string -> option (grid T)).

(** The longwave outputs of an evaluation in terms of its inputs. *)
Lemma evaluated_longwave (P_A raster : grid T) (s : self)
    (air snow p q w d : grid T) (rs : Z) r c :
  evaluated P_A raster s r c -> stores s air snow p q w d rs ->
  forall i j, (i < r)%nat -> (j < c)%nat ->
    cell (CDLW s) i j = CDLW_chain (cell raster i j) (cell d i j) (cell air i j) /\
    cell (ULW s) i j = ULW_at (cell snow i j).
Proof.
  intros Ev (Ea & Es & Ep & Eq & Ew & Ed & Er) i j Hi Hj.
  unfold CDLW_chain.
  rewrite (is_grid_cell (ev_CDLW Ev)), (is_grid_cell (ev_ULW Ev)) by assumption.
  rewrite (is_grid_cell (ev_weighted Ev)), (is_grid_cell (ev_atm Ev)) by assumption.
  rewrite (is_grid_cell (ev_F_c Ev)) by assumption.
  rewrite Ea, Es, Ed. split; reflexivity.
Qed.

(** X2.  On grids of one shape (the six inputs, the canopy raster of the
    resolution and the standard-pressure grid it selects), [__init__]
    returns: it stores the six inputs and the resolution unchanged, and
    every attribute it computes, the four outputs among them, has the shape
    of the inputs. *)
Theorem X2_one_shape_in_one_shape_out
    (air snow p q w d : grid T) (rs : Z) (raster : grid T) (r c : nat) :
  gdal_Open (afd_fn rs) = Some raster ->
  has_shape raster r c -> has_shape (P_A_of P_A_500 P_A_30 rs) r c ->
  has_shape air r c -> has_shape snow r c -> has_shape p r c ->
  has_shape q r c -> has_shape w r c -> has_shape d r c ->
  exists s : self,
    init P_A_500 P_A_30 gdal_Open air snow p q w d rs = Ok s /\
    (air_tmp s = air /\ snow_tmp s = snow /\ pres s = p /\ spfh s = q /\
     wind s = w /\ dlw s = d /\ res s = rs) /\
    (has_shape (LH s) r c /\ has_shape (SH s) r c /\
     has_shape (CDLW s) r c /\ has_shape (ULW s) r c) /\
    (has_shape (F_c s) r c /\ has_shape (rh s) r c /\ has_shape (e_sat_air s) r c /\
     has_shape (e_sat_snow s) r c /\ has_shape (e_a s) r c /\
     has_shape (rho_a s) r c /\ has_shape (b s) r c /\ has_shape (fu s) r c /\
     has_shape (d_h_e s) r c /\ has_shape (zeta s) r c /\
     has_shape (atm_emissivity s) r c /\ has_shape (weighted_emissivity s) r c).
Proof.
  intros Hopen Hra HPA Hair Hsnow Hp Hq Hw Hd.
  destruct (init_evaluated P_A_500 P_A_30 gdal_Open rs Hopen Hra HPA
              Hair Hsnow Hp Hq Hw Hd) as (s & E & St & Ev).
  exists s. split; [exact E |]. split; [exact St |].
  destruct Ev. split; repeat split; eapply is_grid_shape; eassumption.
Qed.

(** X3.  The evaluation is local to the cell: of two evaluations on grids
    of one shape, at the same resolution, whose six inputs agree at a cell,
    the four outputs agree at that cell, whatever the inputs are at the
    other cells. *)
Theorem X3_outputs_depend_on_the_cell_only
    (air1 snow1 p1 q1 w1 d1 air2 snow2 p2 q2 w2 d2 : grid T)
    (rs : Z) (raster : grid T) (r c i j : nat) :
  gdal_Open (afd_fn rs) = Some raster ->
  has_shape raster r c -> has_shape (P_A_of P_A_500 P_A_30 rs) r c ->
  has_shape air1 r c -> has_shape snow1 r c -> has_shape p1 r c ->
  has_shape q1 r c -> has_shape w1 r c -> has_shape d1 r c ->
  has_shape air2 r c -> has_shape snow2 r c -> has_shape p2 r c ->
  has_shape q2 r c -> has_shape w2 r c -> has_shape d2 r c ->
  (i < r)%nat -> (j < c)%nat ->
  cell air1 i j = cell air2 i j -> cell snow1 i j = cell snow2 i j ->
  cell p1 i j = cell p2 i j -> cell q1 i j = cell q2 i j ->
  cell w1 i j = cell w2 i j -> cell d1 i j = cell d2 i j ->
  exists s1 s2 : self,
    init P_A_500 P_A_30 gdal_Open air1 snow1 p1 q1 w1 d1 rs = Ok s1 /\
    init P_A_500 P_A_30 gdal_Open air2 snow2 p2 q2 w2 d2 rs = Ok s2 /\
    cell (LH s1) i j = cell (LH s2) i j /\
    cell (SH s1) i j = cell (SH s2) i j /\
    cell (CDLW s1) i j = cell (CDLW s2) i j /\
    cell (ULW s1) i j = cell (ULW s2) i j.
Proof.
  intros Hopen Hra HPA Ha1 Hs1 Hp1 Hq1 Hw1 Hd1 Ha2 Hs2 Hp2 Hq2 Hw2 Hd2
    Hi Hj Ea Es Ep Eq Ew Ed.
  destruct (init_evaluated P_A_500 P_A_30 gdal_Open rs Hopen Hra HPA
              Ha1 Hs1 Hp1 Hq1 Hw1 Hd1) as (s1 & E1 & St1 & Ev1).
  destruct (init_evaluated P_A_500 P_A_30 gdal_Open rs Hopen Hra HPA
              Ha2 Hs2 Hp2 Hq2 Hw2 Hd2) as (s2 & E2 & St2 & Ev2).
  exists s1, s2. split; [exact E1 |]. split; [exact E2 |].
  destruct (evaluated_fluxes Ev1 St1 Hi Hj) as [-> ->].
  destruct (evaluated_fluxes Ev2 St2 Hi Hj) as [-> ->].
  destruct (evaluated_longwave Ev1 St1 Hi Hj) as [-> ->].
  destruct (evaluated_longwave Ev2 St2 Hi Hj) as [-> ->].
  rewrite Ea, Es, Ep, Eq, Ew, Ed. repeat split.
Qed.

(** X4.  Pressure and specific humidity are the first two grids to meet:
    when they cannot be broadcast together (a dimension differs and neither
    is 1), [calc_relative_humidity] fails with ValueError whatever the air
    temperature grid is, and so does [__init__], whatever the other grids
    are, once the canopy raster has opened; when the raster does not
    open, [__init__] has failed with AttributeError before, the raster
    being read ahead of the first step. *)
Theorem X4_pres_spfh_mismatch_fails_at_once
    (air snow p q w d : grid T) (rs : Z) :
  (nrows p <> nrows q /\ nrows p <> 1%nat /\ nrows q <> 1%nat) \/
  (ncols p <> ncols q /\ ncols p <> 1%nat /\ ncols q <> 1%nat) ->
  calc_relative_humidity p q air = Err ValueError /\
  init P_A_500 P_A_30 gdal_Open air snow p q w d rs
  = match gdal_Open (afd_fn rs) with
    | Some _ => Err ValueError
    | None => Err AttributeError
    end.
Proof.
  intros Hbad.
  assert (Hb : bdim (nrows p) (nrows q) = None \/ bdim (ncols p) (ncols q) = None).
  { destruct Hbad as [(H1 & H2 & H3) | (H1 & H2 & H3)];
      [left | right]; apply bdim_incompatible; auto. }
  assert (Hrh : calc_relative_humidity p q air = Err ValueError).
  { unfold calc_relative_humidity.
    change (lit 0.263 *: arr p)%np with (arr (gmap (fmul (lit 0.263)) p)).
    rewrite (@np_bin_incompatible T fmul (gmap (fmul (lit 0.263)) p) q) by exact Hb.
    reflexivity. }
  split; [exact Hrh |].
  unfold init. fold (afd_fn rs).
  destruct (gdal_Open (afd_fn rs)) as [raster |]; [| reflexivity].
  cbn [bind fmap np_sr arr]. now rewrite Hrh.
Qed.
End CellByCell.

(** ** A snow temperature grid that is broadcast *)

Section BroadcastSnow.
Context {T : Type} `{Arith T}.
Import snow17.
Variables (P_A_500 P_A_30 : grid T) (gdal_Open : string -> option (grid T)).

Ltac cwb :=
  first [ eapply cw_arr; eassumption
        | eapply cw_sl; cwb
        | eapply cw_sr; cwb
        | eapply cw_un; cwb
        | eapply cw_bin; [cwb | cwb]
        | eapply cw_bin_bcast; [cwb | cwb | eassumption | eassumption] ].

Lemma calc_LH_bcast (z f ea es : grid T) r c r' c' :
  has_shape z r c -> has_shape f r c -> has_shape ea r c -> has_shape es r' c' ->
  r' = r \/ r' = 1%nat -> c' = c \/ c' = 1%nat ->
  cellwise (calc_LH z f ea es) r c
    (fun i j => LH_at (cell z i j) (cell f i j) (cell ea i j)
                      (cell es (bidx r' i) (bidx c' j))).
Proof.
  intros Hz Hf Hea Hes Hr Hc. unfold calc_LH.
  eapply cw_ext; [cwb | intros; reflexivity].
Qed.

Lemma calc_SH_bcast (P500 P30 : grid T) (rs : Z) (z f air snow : grid T) r c r' c' :
  has_shape (P_A_of P500 P30 rs) r c ->
  has_shape z r c -> has_shape f r c -> has_shape air r c -> has_shape snow r' c' ->
  r' = r \/ r' = 1%nat -> c' = c \/ c' = 1%nat ->
  cellwise (calc_SH P500 P30 rs z f air snow) r c
    (fun i j => SH_at (cell (P_A_of P500 P30 rs) i j) (cell z i j) (cell f i j)
                      (cell air i j) (cell snow (bidx r' i) (bidx c' j))).
Proof.
  unfold calc_SH, P_A_of. intros HP Hz Hf Hair Hsnow Hr Hc.
  destruct (rs =? 500)%Z; (eapply cw_ext; [cwb | intros; reflexivity]).
Qed.

(** X5.  Broadcasting does what passing the full grid does: a one-cell
    [snow_tmp] grid against [r] by [c] grids yields, in every cell, the LH,
    SH and CDLW of the evaluation in which [snow_tmp] is the [r] by [c] grid
    holding that one value everywhere; only ULW, computed from [snow_tmp]
    alone, keeps the shape of the grid it was given, with the same value. *)
Theorem X5_one_cell_snow_tmp_acts_as_uniform
    (air snow1 snowU p q w d : grid T) (rs : Z) (raster : grid T) (r c : nat) :
  gdal_Open (afd_fn rs) = Some raster ->
  has_shape raster r c -> has_shape (P_A_of P_A_500 P_A_30 rs) r c ->
  has_shape air r c -> has_shape p r c ->
  has_shape q r c -> has_shape w r c -> has_shape d r c ->
  has_shape snow1 1 1 -> has_shape snowU r c ->
  (forall i j, (i < r)%nat -> (j < c)%nat -> cell snowU i j = cell snow1 0 0) ->
  exists s1 sU : self,
    init P_A_500 P_A_30 gdal_Open air snow1 p q w d rs = Ok s1 /\
    init P_A_500 P_A_30 gdal_Open air snowU p q w d rs = Ok sU /\
    has_shape (LH s1) r c /\ has_shape (SH s1) r c /\ has_shape (CDLW s1) r c /\
    has_shape (ULW s1) 1 1 /\ has_shape (ULW sU) r c /\
    forall i j, (i < r)%nat -> (j < c)%nat ->
      cell (LH s1) i j = cell (LH sU) i j /\
      cell (SH s1) i j = cell (SH sU) i j /\
      cell (CDLW s1) i j = cell (CDLW sU) i j /\
      cell (ULW s1) 0 0 = cell (ULW sU) i j.
Proof.
  intros Hopen Hra HPA Hair Hp Hq Hw Hd Hs1 HsU Hsame.
  destruct (init_prefix P_A_500 P_A_30 gdal_Open rs Hopen Hra HPA Hair Hs1 Hp Hq Hw Hd)
    as (F & g_rh & g_esa & g_ess & g_ea & g_rho & g_b & g_fu & g_dhe & g_zeta
        & g_atm & g_we & St1 & (Hzs & Hfs & Heas & Hess & Hatms & Hwes) & E1).
  destruct (init_prefix P_A_500 P_A_30 gdal_Open rs Hopen Hra HPA Hair HsU Hp Hq Hw Hd)
    as (F' & g_rh' & g_esa' & g_ess' & g_ea' & g_rho' & g_b' & g_fu' & g_dhe' & g_zeta'
        & g_atm' & g_we' & StU & (_ & _ & _ & Hess' & _ & _) & EU).
  destruct St1 as (EF & Erh & Eesa & Eess & Eea & Erho & Eb & Efu & Edhe & Ezeta
                   & Eatm & Ewe).
  destruct StU as (EF' & Erh' & Eesa' & Eess' & Eea' & Erho' & Eb' & Efu' & Edhe'
                   & Ezeta' & Eatm' & Ewe').
  assert (F' = F) by congruence. subst F'.
  assert (g_rh' = g_rh) by congruence. subst g_rh'.
  assert (g_esa' = g_esa) by congruence. subst g_esa'.
  assert (g_ea' = g_ea) by congruence. subst g_ea'.
  assert (g_rho' = g_rho) by congruence. subst g_rho'.
  assert (g_b' = g_b) by congruence. subst g_b'.
  assert (g_fu' = g_fu) by congruence. subst g_fu'.
  assert (g_dhe' = g_dhe) by congruence. subst g_dhe'.
  assert (g_zeta' = g_zeta) by congruence. subst g_zeta'.
  assert (g_atm' = g_atm) by congruence. subst g_atm'.
  assert (g_we' = g_we) by congruence. subst g_we'.
  destruct (@calc_snow_saturate_vapor_pressure_cw T _ 1 1 snow1 Hs1)
    as (x1 & Ex1 & _ & Hc1).
  destruct (@calc_snow_saturate_vapor_pressure_cw T _ r c snowU HsU)
    as (xU & ExU & _ & HcU).
  assert (x1 = g_ess) by congruence. subst x1.
  assert (xU = g_ess') by congruence. subst xU.
  destruct (@calc_LH_bcast g_zeta g_fu g_ea g_ess r c 1 1)
    as (L1 & EL1 & HL1s & HL1); auto.
  destruct (@calc_LH_cw T _ r c g_zeta g_fu g_ea g_ess')
    as (LU & ELU & HLUs & HLU); auto.
  destruct (@calc_SH_bcast P_A_500 P_A_30 rs g_zeta g_fu air snow1 r c 1 1)
    as (S1 & ES1 & HS1s & HS1); auto.
  destruct (@calc_SH_cw T _ r c P_A_500 P_A_30 rs g_zeta g_fu air snowU)
    as (SU & ESU & HSUs & HSU); auto.
  destruct (@calc_DLW_cw T _ r c d g_we g_atm) as (C & EC & HCs & HC); auto.
  destruct (@calc_ULW_cw T _ 1 1 snow1 Hs1) as (U1 & EU1 & HU1s & HU1).
  destruct (@calc_ULW_cw T _ r c snowU HsU) as (UU & EUU & HUUs & HUU).
  rewrite EL1, ES1, EC, EU1 in E1. rewrite ELU, ESU, EC, EUU in EU.
  cbn [bind] in E1, EU.
  eexists. eexists. split; [exact E1 |]. split; [exact EU |]. cbn.
  repeat (split; [assumption |]).
  intros i j Hi Hj.
  rewrite HL1, HLU, HS1, HSU, HU1, HUU by (assumption || lia).
  rewrite HcU, Hc1 by (assumption || cbn; lia).
  rewrite !Hsame by assumption. cbn [bidx Nat.eqb]. repeat split.
Qed.
End BroadcastSnow.

(** ** Signs, ranges and closed forms in exact arithmetic *)

Section RealFormulas.
Local Open Scope R_scope.
Import snow17.

Ltac positive :=
  repeat first
    [ assumption
    | lra
    | apply Rmult_lt_0_compat
    | apply Rdiv_lt_0_compat
    | apply Rinv_0_lt_compat
    | apply pow_lt ].

Lemma rho_a_at_pos (p a : R) : 0 < p -> -273.16 < a -> 0 < rho_a_at p a.
Proof. intros Hp Ha. unfold rho_a_at, R_SPECIFIC. rsimp. positive. Qed.

Lemma b_at_pos (P rho : R) : 0 < P -> 0 < rho -> 0 < b_at P rho.
Proof.
  intros HP Hrho. pose proof ln_Z_A_Z_0_pos as Hl.
  unfold b_at, RHO_W, K in *. rsimp. positive.
Qed.

Lemma fu_at_pos (b0 w : R) : 0 < b0 -> 0 < w -> 0 < fu_at b0 w.
Proof. intros Hb Hw. unfold fu_at. rsimp. positive. Qed.

Lemma zeta_at_range (dhe w a : R) : a <> 0 -> w <> 0 -> 0 < zeta_at dhe w a < 1.
Proof.
  intros Ha Hw. rewrite zeta_at_stable by assumption.
  pose proof (R_i_at_positive Ha Hw) as HR.
  assert (H1 : 1 < (1 + 4.7 * R_i_at a w) ^ 2) by nra.
  split.
  - apply Rdiv_lt_0_compat; lra.
  - apply Rmult_lt_reg_r with ((1 + 4.7 * R_i_at a w) ^ 2); [lra |].
    unfold Rdiv. rewrite Rmult_assoc, Rinv_l by lra. lra.
Qed.

(** Whatever the air temperature, [R_i] is not negative. *)
Lemma R_i_at_not_negative (a w : R) : w <> 0 -> ~ R_i_at a w < 0.
Proof.
  intros Hw. destruct (Req_dec a 0) as [-> | Ha].
  - assert (HR : R_i_at 0 w = 0) by (unfold R_i_at; rsimp; unfold Rdiv; ring).
    rewrite HR. lra.
  - pose proof (R_i_at_positive Ha Hw). lra.
Qed.

Lemma SH_at_factor (P z f a s : R) :
  SH_at P z f a s = (z * 0.1 * 0.24 * P / 0.622 * f * 11.62) * (a - s).
Proof. unfold SH_at, RHO_W. rsimp. field. Qed.

Lemma LH_at_factor (z f ea es : R) :
  LH_at z f ea es = (z * 677 * 0.1 * f * 0.01 * 11.62) * (ea - es).
Proof. unfold LH_at, RHO_W, L_S, PA_2_MB. rsimp. field. Qed.

Lemma fu_at_calm (b0 : R) : fu_at b0 0 = 0.
Proof. unfold fu_at. rsimp. ring. Qed.

Lemma d_h_e_at_calm : d_h_e_at 0 = 0.
Proof. unfold d_h_e_at. rsimp. unfold Rdiv. ring. Qed.

Lemma CDLW_chain_mix (ra dl a : R) :
  dl <> 0 -> a + 273.16 <> 0 ->
  CDLW_chain ra dl a
  = (1 - ra / 100) * dl + ra / 100 * (0.98 * 5.67e-8 * (a + 273.16) ^ 4).
Proof.
  intros Hd Ha. unfold CDLW_chain, CDLW_at, weighted_emissivity_at, atm_emissivity_at.
  rsimp. field. repeat split; try lra; try assumption.
Qed.



(** The wind speed cancels out of [gamma]. *)
Lemma gamma_at_constant (w : R) :
  w <> 0 ->
  gamma_at (d_h_e_at w) w
  = 5.3 * 9.4 * (0.4 ^ 2 / ln (Z_A / Z_0) ^ 2) * sqrt (Z_A / Z_0).
Proof.
  intros Hw. pose proof ln_Z_A_Z_0_pos as Hl.
  unfold gamma_at, d_h_e_at, K, Z_A, Z_0 in *. rsimp.
  field. split; [lra | exact Hw].
Qed.

Lemma rh_at_real (p q a : R) :
  rh_at p q a = 0.263 * p * q * (1 / exp (17.67 * a / (243.5 + a))).
Proof. unfold rh_at. rsimp. now rewrite (Rplus_comm a). Qed.

Lemma rh_at_decreasing (p q a1 a2 : R) :
  0 < p * q -> -243.5 < a1 -> a1 < a2 -> rh_at p q a2 < rh_at p q a1.
Proof.
  intros Hpq Ha Hlt. rewrite !rh_at_real.
  pose proof (magnus_exponent_increasing Ha Hlt) as Hex.
  apply exp_increasing in Hex.
  pose proof (exp_pos (17.67 * a1 / (243.5 + a1))) as H1.
  rewrite !Rmult_assoc. apply Rmult_lt_compat_l; [lra |].
  rewrite <- !Rmult_assoc.
  apply Rmult_lt_compat_l; [exact Hpq |].
  unfold Rdiv. rewrite !Rmult_1_l. apply Rinv_lt_contravar; [| exact Hex].
  apply Rmult_lt_0_compat; lra.
Qed.

(** X7.  Where the wind is not zero the unstable branch of the stability
    correction is never taken, whatever the air temperature: [R_i < 0] is
    false at the cell, and zeta is 0 where [air_tmp] is zero and strictly
    between 0 and 1 elsewhere.  The correction never amplifies a flux.  In
    exact arithmetic. *)
Theorem X7_zeta_between_0_and_1 (d w air : grid R) (r c : nat) :
  has_shape d r c -> has_shape w r c -> has_shape air r c ->
  exists R_i zeta : grid R,
    R_i_of air w = Ok R_i /\
    calc_unstable_correction d w air = Ok zeta /\
    forall i j, (i < r)%nat -> (j < c)%nat -> cell w i j <> 0 ->
      (cell R_i i j <? lit 0)%fl = false /\
      0 <= cell zeta i j < 1 /\
      (cell air i j = 0 -> cell zeta i j = 0) /\
      (cell air i j <> 0 -> 0 < cell zeta i j).
Proof.
  intros Hd Hw Hair.
  destruct (R_i_of_cw Hair Hw) as (R_i & HR & HRs & HRc).
  destruct (calc_unstable_correction_cw Hd Hw Hair) as (zeta & Hz & Hzs & Hzc).
  exists R_i, zeta. split; [exact HR |]. split; [exact Hz |].
  intros i j Hi Hj Hw0. rewrite Hzc, HRc by assumption.
  split.
  { cbn [fltb R_arith]. apply Rltb_false.
    change (lit 0) with (Q2R 0). unfold Q2R. cbn [Qnum Qden].
    pose proof (@R_i_at_not_negative (cell air i j) (cell w i j) Hw0). lra. }
  destruct (Req_dec (cell air i j) 0) as [Ha | Ha].
  - rewrite (zeta_at_air_zero _ _ Ha). repeat split; intros; lra.
  - pose proof (@zeta_at_range (cell d i j) (cell w i j) (cell air i j) Ha Hw0).
    repeat split; intros; lra.
Qed.


(** X13.  The wind speed cancels out of the local array [gamma] of the
    stability correction: computed from the exchange coefficient of
    [calc_exchange_coefficient], [gamma] is the same constant
    5.3 * 9.4 * K^2 / ln(Z_A/Z_0)^2 * sqrt(Z_A/Z_0) at every cell where the
    wind is not zero.  In exact arithmetic. *)
Theorem X13_gamma_is_a_constant (w : grid R) (r c : nat) :
  has_shape w r c ->
  exists dhe gamma : grid R,
    calc_exchange_coefficient w = Ok dhe /\
    gamma_of dhe w = Ok gamma /\
    forall i j, (i < r)%nat -> (j < c)%nat -> cell w i j <> 0 ->
      cell gamma i j
      = 5.3 * 9.4 * (0.4 ^ 2 / ln (1000 / 0.01) ^ 2) * sqrt (1000 / 0.01).
Proof.
  intros Hw.
  destruct (calc_exchange_coefficient_cw Hw) as (dhe & Ed & Hds & Hdc).
  destruct (gamma_of_cw Hds Hw) as (gamma & Eg & Hgs & Hgc).
  exists dhe, gamma. split; [exact Ed |]. split; [exact Eg |].
  intros i j Hi Hj Hw0. rewrite Hgc, Hdc by assumption.
  rewrite gamma_at_constant by assumption.
  unfold Z_A, Z_0. rsimp.
  replace (10000 * / 10) with 1000 by lra. reflexivity.
Qed.

(** X14.  The relative humidity of [calc_rh] (and of the evaluator, which
    computes the same expression) is strictly decreasing in the air
    temperature above -243.5 degrees, for a positive product of pressure
    and specific humidity: the same moisture is a smaller share of what
    warmer air can hold.  In exact arithmetic. *)
Theorem X14_rh_decreases_with_air_tmp (a1 a2 p q : grid R) (r c i j : nat) :
  has_shape a1 r c -> has_shape a2 r c -> has_shape p r c -> has_shape q r c ->
  (i < r)%nat -> (j < c)%nat ->
  0 < cell p i j * cell q i j ->
  -243.5 < cell a1 i j -> cell a1 i j < cell a2 i j ->
  exists h1 h2 : grid R,
    calc_rh a1 p q = Ok h1 /\ calc_rh a2 p q = Ok h2 /\
    calc_relative_humidity p q a1 = Ok h1 /\
    calc_relative_humidity p q a2 = Ok h2 /\
    cell h2 i j < cell h1 i j.
Proof.
  intros Ha1 Ha2 Hp Hq Hi Hj Hpq Hlo Hlt.
  destruct (calc_rh_cw Ha1 Hp Hq) as (h1 & E1 & _ & H1).
  destruct (calc_rh_cw Ha2 Hp Hq) as (h2 & E2 & _ & H2).
  exists h1, h2. repeat split; try assumption.
  rewrite H1, H2 by assumption. now apply rh_at_decreasing.
Qed.

Variables (P_A_500 P_A_30 : grid R) (gdal_Open : string -> option (grid R)).

(** X6.  The actual vapour pressure does not depend on the air temperature:
    the relative humidity of step 1 divides by the exponential that the
    saturation pressure of step 2 multiplies by, and step 4 multiplies the
    two, so that [e_a] is 0.263 * pres * spfh / 100 * 611.2 in every cell
    (away from the pole of the exponent at -243.5 degrees).  In exact
    arithmetic. *)
Theorem X6_e_a_ignores_air_tmp
    (air snow p q w d : grid R) (rs : Z) (raster : grid R) (r c : nat) :
  gdal_Open (afd_fn rs) = Some raster ->
  has_shape raster r c -> has_shape (P_A_of P_A_500 P_A_30 rs) r c ->
  has_shape air r c -> has_shape snow r c -> has_shape p r c ->
  has_shape q r c -> has_shape w r c -> has_shape d r c ->
  exists s : self,
    init P_A_500 P_A_30 gdal_Open air snow p q w d rs = Ok s /\
    forall i j, (i < r)%nat -> (j < c)%nat -> cell air i j <> -243.5 ->
      cell (e_a s) i j = 0.263 * cell p i j * cell q i j / 100 * 611.2.
Proof.
  intros Hopen Hra HPA Hair Hsnow Hp Hq Hw Hd.
  destruct (init_evaluated P_A_500 P_A_30 gdal_Open rs Hopen Hra HPA
              Hair Hsnow Hp Hq Hw Hd) as (s & E & St & Ev).
  exists s. split; [exact E |]. stored St.
  intros i j Hi Hj _.
  rewrite (is_grid_cell (ev_e_a Ev)) by assumption.
  rewrite (is_grid_cell (ev_rh Ev)), (is_grid_cell (ev_e_sat_air Ev)) by assumption.
  rewrite Ea, Ep, Eq. apply e_a_at_closed.
Qed.

(** X8.  At a cell where the air temperature is exactly zero the evaluator
    reports no turbulent flux at all: [R_i] is 0/0 there, zeta keeps its
    initial zero, and LH and SH, both multiples of zeta, are zero whatever
    the other inputs are.  In exact arithmetic. *)
Theorem X8_no_flux_at_zero_air_tmp
    (air snow p q w d : grid R) (rs : Z) (raster : grid R) (r c : nat) :
  gdal_Open (afd_fn rs) = Some raster ->
  has_shape raster r c -> has_shape (P_A_of P_A_500 P_A_30 rs) r c ->
  has_shape air r c -> has_shape snow r c -> has_shape p r c ->
  has_shape q r c -> has_shape w r c -> has_shape d r c ->
  exists s : self,
    init P_A_500 P_A_30 gdal_Open air snow p q w d rs = Ok s /\
    forall i j, (i < r)%nat -> (j < c)%nat -> cell air i j = 0 ->
      cell (zeta s) i j = 0 /\ cell (LH s) i j = 0 /\ cell (SH s) i j = 0.
Proof.
  intros Hopen Hra HPA Hair Hsnow Hp Hq Hw Hd.
  destruct (init_evaluated P_A_500 P_A_30 gdal_Open rs Hopen Hra HPA
              Hair Hsnow Hp Hq Hw Hd) as (s & E & St & Ev).
  exists s. split; [exact E |]. stored St.
  intros i j Hi Hj H0.
  assert (Hz : cell (zeta s) i j = 0).
  { rewrite (is_grid_cell (ev_zeta Ev)) by assumption.
    apply zeta_at_air_zero. now rewrite Ea. }
  split; [exact Hz |]. split.
  - rewrite (is_grid_cell (ev_LH Ev)) by assumption. rewrite Hz.
    apply LH_at_zeta_zero.
  - rewrite (is_grid_cell (ev_SH Ev)) by assumption. rewrite Hz.
    apply SH_at_zeta_zero.
Qed.

(** X9.  In calm air there is no turbulent exchange: at a cell where the
    wind speed is zero, the exchange coefficient and the wind function are
    zero, and so are LH and SH.  In exact arithmetic. *)
Theorem X9_no_flux_in_calm_air
    (air snow p q w d : grid R) (rs : Z) (raster : grid R) (r c : nat) :
  gdal_Open (afd_fn rs) = Some raster ->
  has_shape raster r c -> has_shape (P_A_of P_A_500 P_A_30 rs) r c ->
  has_shape air r c -> has_shape snow r c -> has_shape p r c ->
  has_shape q r c -> has_shape w r c -> has_shape d r c ->
  exists s : self,
    init P_A_500 P_A_30 gdal_Open air snow p q w d rs = Ok s /\
    forall i j, (i < r)%nat -> (j < c)%nat -> cell w i j = 0 ->
      cell (d_h_e s) i j = 0 /\ cell (fu s) i j = 0 /\
      cell (LH s) i j = 0 /\ cell (SH s) i j = 0.
Proof.
  intros Hopen Hra HPA Hair Hsnow Hp Hq Hw Hd.
  destruct (init_evaluated P_A_500 P_A_30 gdal_Open rs Hopen Hra HPA
              Hair Hsnow Hp Hq Hw Hd) as (s & E & St & Ev).
  exists s. split; [exact E |]. stored St.
  intros i j Hi Hj H0.
  assert (Hf : cell (fu s) i j = 0).
  { rewrite (is_grid_cell (ev_fu Ev)) by assumption.
    rewrite Ew, H0. apply fu_at_calm. }
  split.
  { rewrite (is_grid_cell (ev_d_h_e Ev)) by assumption.
    rewrite Ew, H0. apply d_h_e_at_calm. }
  split; [exact Hf |]. split.
  - rewrite (is_grid_cell (ev_LH Ev)) by assumption. rewrite Hf, LH_at_factor. ring.
  - rewrite (is_grid_cell (ev_SH Ev)) by assumption. rewrite Hf, SH_at_factor.
    unfold Rdiv. ring.
Qed.

(** X10.  The direction of the turbulent fluxes: at a cell with positive
    pressure, positive wind, positive standard pressure and an air
    temperature that is not zero and above absolute zero, SH has the sign
    of [air_tmp - snow_tmp] and LH has the sign of [e_a - e_sat_snow].
    In exact arithmetic. *)
Theorem X10_fluxes_follow_the_gradients
    (air snow p q w d : grid R) (rs : Z) (raster : grid R) (r c : nat) :
  gdal_Open (afd_fn rs) = Some raster ->
  has_shape raster r c -> has_shape (P_A_of P_A_500 P_A_30 rs) r c ->
  has_shape air r c -> has_shape snow r c -> has_shape p r c ->
  has_shape q r c -> has_shape w r c -> has_shape d r c ->
  exists s : self,
    init P_A_500 P_A_30 gdal_Open air snow p q w d rs = Ok s /\
    forall i j, (i < r)%nat -> (j < c)%nat ->
      0 < cell p i j -> 0 < cell w i j ->
      0 < cell (P_A_of P_A_500 P_A_30 rs) i j ->
      cell air i j <> 0 -> -273.16 < cell air i j ->
      (cell snow i j < cell air i j -> 0 < cell (SH s) i j) /\
      (cell air i j < cell snow i j -> cell (SH s) i j < 0) /\
      (cell air i j = cell snow i j -> cell (SH s) i j = 0) /\
      (cell (e_sat_snow s) i j < cell (e_a s) i j -> 0 < cell (LH s) i j) /\
      (cell (e_a s) i j < cell (e_sat_snow s) i j -> cell (LH s) i j < 0) /\
      (cell (e_a s) i j = cell (e_sat_snow s) i j -> cell (LH s) i j = 0).
Proof.
  intros Hopen Hra HPA Hair Hsnow Hp Hq Hw Hd.
  destruct (init_evaluated P_A_500 P_A_30 gdal_Open rs Hopen Hra HPA
              Hair Hsnow Hp Hq Hw Hd) as (s & E & St & Ev).
  exists s. split; [exact E |]. stored St.
  intros i j Hi Hj Hp0 Hw0 HP0 Ha0 Ha1.
  assert (Hz : 0 < cell (zeta s) i j).
  { rewrite (is_grid_cell (ev_zeta Ev)) by assumption. rewrite Ew, Ea.
    apply zeta_at_range; [exact Ha0 | lra]. }
  assert (Hf : 0 < cell (fu s) i j).
  { rewrite (is_grid_cell (ev_fu Ev)) by assumption.
    rewrite (is_grid_cell (ev_b Ev)) by assumption.
    rewrite (is_grid_cell (ev_rho_a Ev)) by assumption.
    rewrite Ew, Ep, Ea.
    apply fu_at_pos; [| exact Hw0].
    apply b_at_pos; [exact HP0 |]. now apply rho_a_at_pos. }
  rewrite (is_grid_cell (ev_SH Ev)), (is_grid_cell (ev_LH Ev)) by assumption.
  rewrite SH_at_factor, LH_at_factor, Ea, Es.
  set (kS := cell (zeta s) i j * 0.1 * 0.24 * cell (P_A_of P_A_500 P_A_30 rs) i j
             / 0.622 * cell (fu s) i j * 11.62).
  set (kL := cell (zeta s) i j * 677 * 0.1 * cell (fu s) i j * 0.01 * 11.62).
  assert (HkS : 0 < kS) by (unfold kS; positive).
  assert (HkL : 0 < kL) by (unfold kL; positive).
  repeat split; intros; nra.
Qed.

(** X11.  The canopy-corrected downwelling longwave is the mix of the sky
    and the canopy: where [dlw] is not zero and the air is not at absolute
    zero, CDLW = (1 - F_c) * dlw + F_c * 0.98 * 5.67e-8 * (air_tmp + 273.16)^4,
    the canopy emitting as a grey body at air temperature.  Under a closed
    canopy (F_c = 1) CDLW no longer depends on [dlw].  In exact
    arithmetic. *)
Theorem X11_CDLW_mixes_sky_and_canopy
    (air snow p q w d : grid R) (rs : Z) (raster : grid R) (r c : nat) :
  gdal_Open (afd_fn rs) = Some raster ->
  has_shape raster r c -> has_shape (P_A_of P_A_500 P_A_30 rs) r c ->
  has_shape air r c -> has_shape snow r c -> has_shape p r c ->
  has_shape q r c -> has_shape w r c -> has_shape d r c ->
  exists s : self,
    init P_A_500 P_A_30 gdal_Open air snow p q w d rs = Ok s /\
    forall i j, (i < r)%nat -> (j < c)%nat ->
      cell d i j <> 0 -> cell air i j <> -273.16 ->
      cell (F_c s) i j = cell raster i j / 100 /\
      cell (CDLW s) i j
      = (1 - cell (F_c s) i j) * cell d i j
        + cell (F_c s) i j * (0.98 * 5.67e-8 * (cell air i j + 273.16) ^ 4) /\
      (cell (F_c s) i j = 1 ->
       cell (CDLW s) i j = 0.98 * 5.67e-8 * (cell air i j + 273.16) ^ 4).
Proof.
  intros Hopen Hra HPA Hair Hsnow Hp Hq Hw Hd.
  destruct (init_evaluated P_A_500 P_A_30 gdal_Open rs Hopen Hra HPA
              Hair Hsnow Hp Hq Hw Hd) as (s & E & St & Ev).
  exists s. split; [exact E |].
  intros i j Hi Hj Hd0 Ha0.
  destruct (evaluated_longwave Ev St Hi Hj) as [HC _].
  assert (HF : cell (F_c s) i j = cell raster i j / 100).
  { rewrite (is_grid_cell (ev_F_c Ev)) by assumption. rsimp. lra. }
  assert (Hmix : cell (CDLW s) i j
                 = (1 - cell (F_c s) i j) * cell d i j
                   + cell (F_c s) i j
                     * (0.98 * 5.67e-8 * (cell air i j + 273.16) ^ 4)).
  { rewrite HC, HF. apply CDLW_chain_mix; [exact Hd0 | lra]. }
  split; [exact HF |]. split; [exact Hmix |].
  intros H1. rewrite Hmix, H1. ring.
Qed.
End RealFormulas.

(** ** The further properties at concrete inputs *)

Section ConcreteFurther.
Local Open Scope R_scope.
Import snow17.

Lemma X2_one_shape_in_one_shape_out_witness :
  exists s : self,
    init (uniform 2 2 800) (uniform 2 2 900)
         (one_raster (afd_fn 500) (uniform 2 2 0))
         (uniform 2 2 5) (uniform 2 2 0) (uniform 2 2 87000) (uniform 2 2 0.003)
         (uniform 2 2 2) (uniform 2 2 250) 500 = Ok s /\
    has_shape (LH s) 2 2 /\ has_shape (SH s) 2 2 /\
    has_shape (CDLW s) 2 2 /\ has_shape (ULW s) 2 2.
Proof.
  destruct (@X2_one_shape_in_one_shape_out R _ (uniform 2 2 800) (uniform 2 2 900)
              (one_raster (afd_fn 500) (uniform 2 2 0))
              (uniform 2 2 5) (uniform 2 2 0) (uniform 2 2 87000) (uniform 2 2 0.003)
              (uniform 2 2 2) (uniform 2 2 250) 500 (uniform 2 2 0) 2 2)
    as (s & E & _ & Hout & _); try concrete.
  exists s. split; [exact E | exact Hout].
Defined.

Lemma X3_outputs_depend_on_the_cell_only_witness :
  exists s1 s2 : self,
    init (uniform 1 2 800) (uniform 1 2 900)
         (one_raster (afd_fn 500) (uniform 1 2 0))
         (row2 5 7) (row2 0 (-1)) (row2 87000 90000) (row2 0.003 0.004)
         (row2 2 3) (row2 250 300) 500 = Ok s1 /\
    init (uniform 1 2 800) (uniform 1 2 900)
         (one_raster (afd_fn 500) (uniform 1 2 0))
         (row2 5 (-4)) (row2 0 (-9)) (row2 87000 70000) (row2 0.003 0.001)
         (row2 2 8) (row2 250 100) 500 = Ok s2 /\
    cell (LH s1) 0 0 = cell (LH s2) 0 0 /\
    cell (SH s1) 0 0 = cell (SH s2) 0 0.
Proof.
  destruct (@X3_outputs_depend_on_the_cell_only R _ (uniform 1 2 800) (uniform 1 2 900)
              (one_raster (afd_fn 500) (uniform 1 2 0))
              (row2 5 7) (row2 0 (-1)) (row2 87000 90000) (row2 0.003 0.004)
              (row2 2 3) (row2 250 300)
              (row2 5 (-4)) (row2 0 (-9)) (row2 87000 70000) (row2 0.003 0.001)
              (row2 2 8) (row2 250 100) 500 (uniform 1 2 0) 1 2 0 0)
    as (s1 & s2 & E1 & E2 & HL & HS & _); try concrete.
  exists s1, s2. split; [exact E1 |]. split; [exact E2 |].
  split; [exact HL | exact HS].
Defined.

Lemma X4_pres_spfh_mismatch_fails_at_once_witness :
  init (uniform 2 2 800) (uniform 2 2 900)
       (one_raster (afd_fn 500) (uniform 2 2 0))
       (uniform 2 2 5) (uniform 2 2 0) (uniform 2 2 87000) (uniform 3 3 0.003)
       (uniform 2 2 2) (uniform 2 2 250) 500 = Err ValueError /\
  init (uniform 2 2 800) (uniform 2 2 900)
       (one_raster (afd_fn 500) (uniform 2 2 0))
       (uniform 2 2 5) (uniform 2 2 0) (uniform 2 2 87000) (uniform 3 3 0.003)
       (uniform 2 2 2) (uniform 2 2 250) 30 = Err AttributeError.
Proof.
  split.
  - apply (@X4_pres_spfh_mismatch_fails_at_once R _ (uniform 2 2 800) (uniform 2 2 900)
             (one_raster (afd_fn 500) (uniform 2 2 0))
             (uniform 2 2 5) (uniform 2 2 0) (uniform 2 2 87000) (uniform 3 3 0.003)
             (uniform 2 2 2) (uniform 2 2 250) 500).
    left. cbn. lia.
  - apply (@X4_pres_spfh_mismatch_fails_at_once R _ (uniform 2 2 800) (uniform 2 2 900)
             (one_raster (afd_fn 500) (uniform 2 2 0))
             (uniform 2 2 5) (uniform 2 2 0) (uniform 2 2 87000) (uniform 3 3 0.003)
             (uniform 2 2 2) (uniform 2 2 250) 30).
    left. cbn. lia.
Defined.

Lemma X5_one_cell_snow_tmp_acts_as_uniform_witness :
  exists s1 sU : self,
    init (uniform 2 2 800) (uniform 2 2 900)
         (one_raster (afd_fn 500) (uniform 2 2 0))
         (uniform 2 2 5) (uniform 1 1 0) (uniform 2 2 87000) (uniform 2 2 0.003)
         (uniform 2 2 2) (uniform 2 2 250) 500 = Ok s1 /\
    init (uniform 2 2 800) (uniform 2 2 900)
         (one_raster (afd_fn 500) (uniform 2 2 0))
         (uniform 2 2 5) (uniform 2 2 0) (uniform 2 2 87000) (uniform 2 2 0.003)
         (uniform 2 2 2) (uniform 2 2 250) 500 = Ok sU /\
    cell (LH s1) 1 1 = cell (LH sU) 1 1.
Proof.
  destruct (@X5_one_cell_snow_tmp_acts_as_uniform R _ (uniform 2 2 800) (uniform 2 2 900)
              (one_raster (afd_fn 500) (uniform 2 2 0))
              (uniform 2 2 5) (uniform 1 1 0) (uniform 2 2 0)
              (uniform 2 2 87000) (uniform 2 2 0.003)
              (uniform 2 2 2) (uniform 2 2 250) 500 (uniform 2 2 0) 2 2)
    as (s1 & sU & E1 & EU & _ & _ & _ & _ & _ & Hcells); try concrete.
  exists s1, sU. split; [exact E1 |]. split; [exact EU |].
  now destruct (Hcells 1%nat 1%nat ltac:(lia) ltac:(lia)).
Defined.

Lemma X6_e_a_ignores_air_tmp_witness :
  exists s : self,
    init (uniform 1 1 800) (uniform 1 1 900)
         (one_raster (afd_fn 500) (uniform 1 1 0))
         (uniform 1 1 5) (uniform 1 1 0) (uniform 1 1 87000) (uniform 1 1 0.003)
         (uniform 1 1 2) (uniform 1 1 250) 500 = Ok s /\
    cell (e_a s) 0 0
    = 0.263 * cell (uniform 1 1 87000) 0 0 * cell (uniform 1 1 0.003) 0 0 / 100 * 611.2.
Proof.
  destruct (@X6_e_a_ignores_air_tmp (uniform 1 1 800) (uniform 1 1 900)
              (one_raster (afd_fn 500) (uniform 1 1 0))
              (uniform 1 1 5) (uniform 1 1 0) (uniform 1 1 87000) (uniform 1 1 0.003)
              (uniform 1 1 2) (uniform 1 1 250) 500 (uniform 1 1 0) 1 1)
    as (s & E & Hcells); try concrete.
  exists s. split; [exact E |]. apply Hcells; concrete.
Defined.

Lemma X7_zeta_between_0_and_1_witness :
  exists zeta : grid R,
    calc_unstable_correction (uniform 1 1 0.001) (uniform 1 1 2) (uniform 1 1 (-3))
    = Ok zeta /\
    0 <= cell zeta 0 0 < 1.
Proof.
  destruct (@X7_zeta_between_0_and_1
              (uniform 1 1 0.001) (uniform 1 1 2) (uniform 1 1 (-3)) 1 1)
    as (R_i & zeta & _ & Hz & Hcells); try concrete.
  exists zeta. split; [exact Hz |].
  destruct (Hcells 0%nat 0%nat ltac:(lia) ltac:(lia) ltac:(concrete))
    as (_ & Hrange & _).
  exact Hrange.
Defined.

Lemma X8_no_flux_at_zero_air_tmp_witness :
  exists s : self,
    init (uniform 1 1 800) (uniform 1 1 900)
         (one_raster (afd_fn 500) (uniform 1 1 0))
         (uniform 1 1 0) (uniform 1 1 (-4)) (uniform 1 1 87000) (uniform 1 1 0.003)
         (uniform 1 1 2) (uniform 1 1 250) 500 = Ok s /\
    cell (LH s) 0 0 = 0 /\ cell (SH s) 0 0 = 0.
Proof.
  destruct (@X8_no_flux_at_zero_air_tmp (uniform 1 1 800) (uniform 1 1 900)
              (one_raster (afd_fn 500) (uniform 1 1 0))
              (uniform 1 1 0) (uniform 1 1 (-4)) (uniform 1 1 87000) (uniform 1 1 0.003)
              (uniform 1 1 2) (uniform 1 1 250) 500 (uniform 1 1 0) 1 1)
    as (s & E & Hcells); try concrete.
  exists s. split; [exact E |].
  destruct (Hcells 0%nat 0%nat ltac:(lia) ltac:(lia) ltac:(concrete))
    as (_ & HL & HS).
  split; [exact HL | exact HS].
Defined.

Lemma X9_no_flux_in_calm_air_witness :
  exists s : self,
    init (uniform 1 1 800) (uniform 1 1 900)
         (one_raster (afd_fn 500) (uniform 1 1 0))
         (uniform 1 1 5) (uniform 1 1 (-4)) (uniform 1 1 87000) (uniform 1 1 0.003)
         (uniform 1 1 0) (uniform 1 1 250) 500 = Ok s /\
    cell (LH s) 0 0 = 0 /\ cell (SH s) 0 0 = 0.
Proof.
  destruct (@X9_no_flux_in_calm_air (uniform 1 1 800) (uniform 1 1 900)
              (one_raster (afd_fn 500) (uniform 1 1 0))
              (uniform 1 1 5) (uniform 1 1 (-4)) (uniform 1 1 87000) (uniform 1 1 0.003)
              (uniform 1 1 0) (uniform 1 1 250) 500 (uniform 1 1 0) 1 1)
    as (s & E & Hcells); try concrete.
  exists s. split; [exact E |].
  destruct (Hcells 0%nat 0%nat ltac:(lia) ltac:(lia) ltac:(concrete))
    as (_ & _ & HL & HS).
  split; [exact HL | exact HS].
Defined.

Lemma X10_fluxes_follow_the_gradients_witness :
  exists s : self,
    init (uniform 1 1 800) (uniform 1 1 900)
         (one_raster (afd_fn 500) (uniform 1 1 0))
         (uniform 1 1 5) (uniform 1 1 (-4)) (uniform 1 1 87000) (uniform 1 1 0.003)
         (uniform 1 1 2) (uniform 1 1 250) 500 = Ok s /\
    0 < cell (SH s) 0 0.
Proof.
  destruct (@X10_fluxes_follow_the_gradients (uniform 1 1 800) (uniform 1 1 900)
              (one_raster (afd_fn 500) (uniform 1 1 0))
              (uniform 1 1 5) (uniform 1 1 (-4)) (uniform 1 1 87000) (uniform 1 1 0.003)
              (uniform 1 1 2) (uniform 1 1 250) 500 (uniform 1 1 0) 1 1)
    as (s & E & Hcells); try concrete.
  exists s. split; [exact E |].
  destruct (Hcells 0%nat 0%nat ltac:(lia) ltac:(lia) ltac:(concrete)
              ltac:(concrete) ltac:(concrete) ltac:(concrete) ltac:(concrete))
    as (Hwarm & _).
  apply Hwarm. concrete.
Defined.

Lemma X11_CDLW_mixes_sky_and_canopy_witness :
  exists s : self,
    init (uniform 1 1 800) (uniform 1 1 900)
         (one_raster (afd_fn 500) (uniform 1 1 40))
         (uniform 1 1 5) (uniform 1 1 (-4)) (uniform 1 1 87000) (uniform 1 1 0.003)
         (uniform 1 1 2) (uniform 1 1 250) 500 = Ok s /\
    cell (F_c s) 0 0 = cell (uniform 1 1 40) 0 0 / 100.
Proof.
  destruct (@X11_CDLW_mixes_sky_and_canopy (uniform 1 1 800) (uniform 1 1 900)
              (one_raster (afd_fn 500) (uniform 1 1 40))
              (uniform 1 1 5) (uniform 1 1 (-4)) (uniform 1 1 87000) (uniform 1 1 0.003)
              (uniform 1 1 2) (uniform 1 1 250) 500 (uniform 1 1 40) 1 1)
    as (s & E & Hcells); try concrete.
  exists s. split; [exact E |].
  destruct (Hcells 0%nat 0%nat ltac:(lia) ltac:(lia) ltac:(concrete)
              ltac:(concrete)) as (HF & _).
  exact HF.
Defined.


Lemma X13_gamma_is_a_constant_witness :
  exists dhe gamma : grid R,
    calc_exchange_coefficient (uniform 1 1 2) = Ok dhe /\
    gamma_of dhe (uniform 1 1 2) = Ok gamma.
Proof.
  destruct (@X13_gamma_is_a_constant (uniform 1 1 2) 1 1)
    as (dhe & gamma & Ed & Eg & _); try concrete.
  exists dhe, gamma. split; [exact Ed | exact Eg].
Defined.

Lemma X14_rh_decreases_with_air_tmp_witness :
  exists h1 h2 : grid R,
    calc_rh (uniform 1 1 (-5)) (uniform 1 1 87000) (uniform 1 1 0.003) = Ok h1 /\
    calc_rh (uniform 1 1 10) (uniform 1 1 87000) (uniform 1 1 0.003) = Ok h2 /\
    cell h2 0 0 < cell h1 0 0.
Proof.
  destruct (@X14_rh_decreases_with_air_tmp (uniform 1 1 (-5)) (uniform 1 1 10)
              (uniform 1 1 87000) (uniform 1 1 0.003) 1 1 0 0)
    as (h1 & h2 & E1 & E2 & _ & _ & Hlt); try concrete.
  exists h1, h2. split; [exact E1 |]. split; [exact E2 | exact Hlt].
Defined.
End ConcreteFurther.

(** ** The name of the canopy raster *)

Section RasterName.
Local Open Scope string_scope.

Lemma string_length_append (s t : string) :
  String.length (s ++ t) = (String.length s + String.length t)%nat.
Proof. induction s as [| a s IH]; cbn; [reflexivity | now rewrite IH]. Qed.

Lemma string_append_cancel_l (s t t' : string) : s ++ t = s ++ t' -> t = t'.
Proof.
  induction s as [| a s IH]; cbn; intros E; [exact E |].
  injection E as E. now apply IH.
Qed.

Lemma string_append_cancel_r (t : string) :
  forall s s' : string, s ++ t = s' ++ t -> s = s'.
Proof.
  induction s as [| a s IH]; intros [| a' s'] E; cbn in E.
  - reflexivity.
  - apply (f_equal String.length) in E. cbn in E.
    rewrite string_length_append in E. lia.
  - apply (f_equal String.length) in E. cbn in E.
    rewrite string_length_append in E. lia.
  - injection E as -> E. f_equal. now apply IH.
Qed.

Lemma to_int_not_nil (z : Z) :
  Z.to_int z <> Decimal.Pos Decimal.Nil /\ Z.to_int z <> Decimal.Neg Decimal.Nil.
Proof.
  destruct z as [| p | p]; cbn; split; try discriminate;
    intros E; injection E as E; now apply (DecimalPos.Unsigned.to_uint_nonnil p).
Qed.

(** [str] can be read back. *)
Lemma str_read_back (z : Z) :
  option_map Z.of_int (NilZero.int_of_string (str z)) = Some z.
Proof.
  unfold str. destruct (to_int_not_nil z) as [Hp Hn].
  rewrite NilZero.isi by assumption. cbn. now rewrite DecimalZ.of_to.
Qed.

Lemma str_injective (z z' : Z) : str z = str z' -> z = z'.
Proof.
  intros E. pose proof (str_read_back z) as Hz. rewrite E, str_read_back in Hz.
  now injection Hz.
Qed.

(** X15.  The resolution is part of the name of the canopy raster that
    [__init__] opens: two different resolutions never name the same file,
    and the decimal digits written into the name read back as the
    resolution. *)
Theorem X15_resolutions_name_distinct_rasters (rs rs' : Z) :
  rs <> rs' ->
  afd_fn rs <> afd_fn rs' /\
  afd_fn rs = "vegetation/amr_forest_density_" ++ str rs ++ "m.tif" /\
  option_map Z.of_int (NilZero.int_of_string (str rs)) = Some rs.
Proof.
  intros Hne. split; [| split; [reflexivity | apply str_read_back]].
  intros E. apply Hne. unfold afd_fn in E.
  apply string_append_cancel_l, string_append_cancel_r in E.
  now apply str_injective.
Qed.

Lemma X15_resolutions_name_distinct_rasters_witness :
  afd_fn 500 <> afd_fn 30.
Proof.
  apply (@X15_resolutions_name_distinct_rasters 500 30). discriminate.
Defined.
End RasterName.

(** * The evaluator in float64 *)

(** What the program computes, as opposed to what its formulas say in
    exact arithmetic.  The decimal constants of the statements stand for
    the nearest float, as Python prints it. *)

(** ** Laws of IEEE 754 arithmetic *)

Section Float64Laws.
Import PrimFloat SpecFloat FloatOps.

Lemma SFcompare_Lt_Gt (a b : spec_float) :
  SFcompare a b = Some Lt -> SFcompare b a = Some Gt.
Proof.
  destruct a as [[] | [] | | [] m1 e1], b as [[] | [] | | [] m2 e2];
    cbn; intros H; try discriminate H; try reflexivity;
    assert (Hm : Pos.compare_cont Eq m2 m1 = CompOpp (Pos.compare_cont Eq m1 m2))
      by (symmetry; apply (Pos.compare_cont_antisym m1 m2 Eq));
    rewrite (Z.compare_antisym e1 e2), Hm;
    destruct (e1 ?= e2)%Z; cbn in *; try discriminate H; try reflexivity;
    destruct (Pos.compare_cont Eq m1 m2); cbn in *; try discriminate H; reflexivity.
Qed.

(** The comparison of floats is asymmetric, NaN included: what is proved
    for every arithmetic with that law holds of float64, whatever the C
    library. *)
Lemma float64_laws (m : libm) : ArithLaws (float64 m).
Proof.
  constructor. intros x y. cbn [fltb float64].
  rewrite !FloatAxioms.ltb_spec. unfold SFltb.
  destruct (SFcompare (Prim2SF x) (Prim2SF y)) as [[] |] eqn:E; try discriminate.
  intros _. now rewrite (SFcompare_Lt_Gt _ _ E).
Qed.

(** The product by 1 is exact: the mantissa of the product is the one of
    [x] shifted by 52 bits, which the rounding shifts back with nothing
    lost. *)
Lemma SF64mul_1_l (x : spec_float) :
  valid_binary prec emax x = true -> FloatAxioms.SF64mul (Prim2SF 1) x = x.
Proof.
  intros Hv.
  change (Prim2SF 1) with (S754_finite false 4503599627370496 (-52)).
  destruct x as [s | s | | s n e]; try reflexivity.
  unfold FloatAxioms.SF64mul, SFmul. cbn [xorb].
  cbn in Hv. unfold bounded, canonical_mantissa in Hv.
  apply andb_prop in Hv. destruct Hv as [Hc Hb].
  apply Z.eqb_eq in Hc.
  unfold binary_round_aux, shr_fexp.
  cbn [Pos.mul Zdigits2 digits2_pos].
  match goal with
  | |- context [ (fexp prec emax (Z.pos ?p + (-52 + e)) - (-52 + e))%Z ] =>
      replace (fexp prec emax (Z.pos p + (-52 + e)) - (-52 + e))%Z with 52%Z
        by (revert Hc; unfold fexp, SpecFloat.emin, prec, emax; lia)
  end.
  cbn [shr shr_record_of_loc iter_pos shr_1 orb shr_m loc_of_shr_record
       round_nearest_even].
  replace (-52 + e + 52)%Z with e by lia.
  cbn [Zdigits2]. rewrite Hc, Z.sub_diag. cbn [shr shr_record_of_loc shr_m].
  now rewrite Hb.
Qed.

Lemma float_mul_1_l (x : float) : (1 * x)%float = x.
Proof.
  apply FloatAxioms.Prim2SF_inj. rewrite FloatAxioms.mul_spec.
  apply SF64mul_1_l, FloatAxioms.Prim2SF_valid.
Qed.

(** [x == 0] holds of the two zeros only. *)
Lemma float_eqb_0 (x : float) :
  (x =? 0)%float = true -> x = 0%float \/ x = (-0)%float.
Proof.
  rewrite FloatAxioms.eqb_spec. intros H.
  rewrite <- (FloatAxioms.SF2Prim_Prim2SF x).
  change (Prim2SF 0) with (S754_zero false) in H.
  destruct (Prim2SF x) as [[] | [] | | [] n e]; try discriminate H;
    [right | left]; reflexivity.
Qed.

Lemma float_add_0_r (x : float) : (x =? 0)%float = false -> (x + 0)%float = x.
Proof.
  rewrite FloatAxioms.eqb_spec. intros H.
  apply FloatAxioms.Prim2SF_inj. rewrite FloatAxioms.add_spec.
  change (Prim2SF 0) with (S754_zero false) in *.
  destruct (Prim2SF x) as [[] | [] | | [] n e]; try discriminate H; reflexivity.
Qed.

Lemma float_add_neg_0_r (x : float) : (x + -0)%float = x.
Proof.
  apply FloatAxioms.Prim2SF_inj. rewrite FloatAxioms.add_spec.
  change (Prim2SF (-0)) with (S754_zero true) in *.
  destruct (Prim2SF x) as [[] | [] | | [] n e]; reflexivity.
Qed.
End Float64Laws.

(** ** The program on float64 *)

Section Float64.
Import PrimFloat.
Import snow17.
#[local] Set Warnings "-inexact-float".
Variable m : libm.

(** Without canopy the weighted emissivity is the atmospheric emissivity
    [e], bit for bit: [1.0 - F_c] is 1, [1 * e] is [e], [F_c * 0.98] is a
    zero, and adding it to [e] leaves [e] when [e] is not a zero. *)
Lemma float64_weighted_no_canopy (F e : float) :
  (F =? 0)%float = true -> (e =? 0)%float = false ->
  @weighted_emissivity_at float (float64 m) F e = e.
Proof.
  intros HF He. unfold weighted_emissivity_at. cbn [lit fsub fmul fadd float64].
  destruct (float_eqb_0 HF) as [-> | ->].
  - assert (H1 : (float_of_Q 1.0 - 0)%float = 1%float) by (vm_compute; reflexivity).
    assert (H0 : (0 * float_of_Q 0.98)%float = 0%float) by (vm_compute; reflexivity).
    rewrite H1, H0, float_mul_1_l. now apply float_add_0_r.
  - assert (H1 : (float_of_Q 1.0 - -0)%float = 1%float) by (vm_compute; reflexivity).
    assert (H0 : (-0 * float_of_Q 0.98)%float = (-0)%float) by (vm_compute; reflexivity).
    rewrite H1, H0, float_mul_1_l. apply float_add_neg_0_r.
Qed.

(** The same on a whole evaluation. *)
Lemma zero_canopy_float64
    (P_A_500 P_A_30 : grid float) (gdal_Open : string -> option (grid float))
    (air snow p q w d : grid float) (rs : Z) (raster : grid float) (r c : nat) :
  gdal_Open (afd_fn rs) = Some raster ->
  has_shape raster r c -> has_shape (P_A_of P_A_500 P_A_30 rs) r c ->
  has_shape air r c -> has_shape snow r c -> has_shape p r c ->
  has_shape q r c -> has_shape w r c -> has_shape d r c ->
  exists s : @self float,
    @init float (float64 m) P_A_500 P_A_30 gdal_Open air snow p q w d rs = Ok s /\
    forall i j, (i < r)%nat -> (j < c)%nat ->
      (cell (F_c s) i j =? 0)%float = true ->
      (cell (atm_emissivity s) i j =? 0)%float = false ->
      cell (weighted_emissivity s) i j = cell (atm_emissivity s) i j.
Proof.
  intros Hopen Hra HPA Hair Hsnow Hp Hq Hw Hd.
  destruct (@init_evaluated float (float64 m) P_A_500 P_A_30 gdal_Open
              air snow p q w d rs raster r c Hopen Hra HPA Hair Hsnow Hp Hq Hw Hd)
    as (s & E & St & Ev).
  exists s. split; [exact E |].
  intros i j Hi Hj HF He.
  rewrite (is_grid_cell (ev_weighted Ev)) by assumption.
  now apply float64_weighted_no_canopy.
Qed.

(** Two evaluations on one cell that differ in [air_tmp] only, -40 and
    -34, at wind 0.8: the two zeta differ in the last digits.  The
    numerator [200 * air_tmp] and the denominator
    [air_tmp * (27.78 * wind)^2] of [R_i] are each rounded, and their
    quotient is not the same float for the two temperatures.  Whatever the
    C library: at these cells zeta is computed by [+], [*] and [/] alone. *)
Lemma float64_zeta_two_air_tmp :
  exists s1 s2 : @self float,
    @init float (float64 m) (uniform64 1 1 800) (uniform64 1 1 900)
      (one_raster64 (afd_fn 500) (uniform64 1 1 0))
      (uniform64 1 1 (-40)) (uniform64 1 1 0) (uniform64 1 1 87000)
      (uniform64 1 1 0.003) (uniform64 1 1 0.8) (uniform64 1 1 250) 500 = Ok s1 /\
    @init float (float64 m) (uniform64 1 1 800) (uniform64 1 1 900)
      (one_raster64 (afd_fn 500) (uniform64 1 1 0))
      (uniform64 1 1 (-34)) (uniform64 1 1 0) (uniform64 1 1 87000)
      (uniform64 1 1 0.003) (uniform64 1 1 0.8) (uniform64 1 1 250) 500 = Ok s2 /\
    cell (zeta s1) 0 0 = 0.11864445424542629%float /\
    cell (zeta s2) 0 0 = 0.11864445424542626%float.
Proof.
  destruct (@init_evaluated float (float64 m) (uniform64 1 1 800) (uniform64 1 1 900)
              (one_raster64 (afd_fn 500) (uniform64 1 1 0))
              (uniform64 1 1 (-40)) (uniform64 1 1 0) (uniform64 1 1 87000)
              (uniform64 1 1 0.003) (uniform64 1 1 0.8) (uniform64 1 1 250) 500
              (uniform64 1 1 0) 1 1)
    as (s1 & E1 & St1 & Ev1); try (split; reflexivity); try reflexivity.
  destruct (@init_evaluated float (float64 m) (uniform64 1 1 800) (uniform64 1 1 900)
              (one_raster64 (afd_fn 500) (uniform64 1 1 0))
              (uniform64 1 1 (-34)) (uniform64 1 1 0) (uniform64 1 1 87000)
              (uniform64 1 1 0.003) (uniform64 1 1 0.8) (uniform64 1 1 250) 500
              (uniform64 1 1 0) 1 1)
    as (s2 & E2 & St2 & Ev2); try (split; reflexivity); try reflexivity.
  exists s1, s2. split; [exact E1 |]. split; [exact E2 |].
  destruct St1 as (Ea1 & _ & _ & _ & Ew1 & _).
  destruct St2 as (Ea2 & _ & _ & _ & Ew2 & _).
  rewrite (is_grid_cell (ev_zeta Ev1)), (is_grid_cell (ev_zeta Ev2)) by lia.
  rewrite Ea1, Ew1, Ea2, Ew2.
  split; vm_compute; reflexivity.
Qed.

(** One cell without canopy, [air_tmp] 5 and [dlw] 250: CDLW, computed as
    [(dlw * e) / e] with a rounding after the product and another after
    the quotient, is the float next above 250.  For every C library whose
    [pow] is accurate to one unit in the last place at the two powers that
    [calc_atm_emissivity] takes. *)
Lemma float64_CDLW_at_250 :
  near (c_pow m 278.16 4) 5986578900.657809 ->
  near (c_pow m 10 (-8)) 1e-08 ->
  exists s : @self float,
    @init float (float64 m) (uniform64 1 1 800) (uniform64 1 1 900)
      (one_raster64 (afd_fn 500) (uniform64 1 1 0))
      (uniform64 1 1 5) (uniform64 1 1 0) (uniform64 1 1 87000)
      (uniform64 1 1 0.003) (uniform64 1 1 2) (uniform64 1 1 250) 500 = Ok s /\
    cell (F_c s) 0 0 = 0%float /\
    (cell (atm_emissivity s) 0 0 =? 0)%float = false /\
    cell (dlw s) 0 0 = 250%float /\
    cell (CDLW s) 0 0 = 250.00000000000003%float.
Proof.
  intros H4 H8.
  destruct (@init_evaluated float (float64 m) (uniform64 1 1 800) (uniform64 1 1 900)
              (one_raster64 (afd_fn 500) (uniform64 1 1 0))
              (uniform64 1 1 5) (uniform64 1 1 0) (uniform64 1 1 87000)
              (uniform64 1 1 0.003) (uniform64 1 1 2) (uniform64 1 1 250) 500
              (uniform64 1 1 0) 1 1)
    as (s & E & St & Ev); try (split; reflexivity); try reflexivity.
  exists s. split; [exact E |].
  destruct St as (Ea & _ & _ & _ & _ & Ed & _).
  rewrite (is_grid_cell (ev_CDLW Ev)), (is_grid_cell (ev_weighted Ev)),
    (is_grid_cell (ev_atm Ev)), (is_grid_cell (ev_F_c Ev)) by lia.
  rewrite Ea, Ed.
  unfold near in H4, H8. vm_compute in H4, H8. vm_compute.
  destruct H4 as [-> | [-> | ->]], H8 as [-> | [-> | ->]];
    vm_compute; repeat split; reflexivity.
Qed.
End Float64.

(** ** The cell without canopy *)

Section ZeroCanopy.
Import PrimFloat.
Import snow17.

(** C4, as amended.  In every evaluation, at a cell where the canopy
    fraction [F_c] is zero and [atm_emissivity] is not, the weighted
    emissivity is [atm_emissivity]: as the program computes it in float64,
    bit for bit and whatever the C library, and in exact arithmetic; and,
    in exact arithmetic, the canopy-corrected downwelling longwave [CDLW]
    is the input [dlw].  For grids of one shape (on which the evaluation
    returns).  As computed in float64, where it is [(dlw * e) / e] with two
    roundings, CDLW need not be [dlw]. *)
Theorem C4_zero_canopy_emissivity_and_dlw :
  (forall (m : libm) (P_A_500 P_A_30 : grid float)
          (gdal_Open : string -> option (grid float))
          (air snow p q w d : grid float) (rs : Z) (raster : grid float)
          (r c : nat),
     gdal_Open (afd_fn rs) = Some raster ->
     has_shape raster r c -> has_shape (P_A_of P_A_500 P_A_30 rs) r c ->
     has_shape air r c -> has_shape snow r c -> has_shape p r c ->
     has_shape q r c -> has_shape w r c -> has_shape d r c ->
     exists s : @self float,
       @init float (float64 m) P_A_500 P_A_30 gdal_Open air snow p q w d rs = Ok s /\
       forall i j, (i < r)%nat -> (j < c)%nat ->
         (cell (F_c s) i j =? 0)%float = true ->
         (cell (atm_emissivity s) i j =? 0)%float = false ->
         cell (weighted_emissivity s) i j = cell (atm_emissivity s) i j) /\
  (forall (P_A_500 P_A_30 : grid R) (gdal_Open : string -> option (grid R))
          (air snow p q w d : grid R) (rs : Z) (raster : grid R) (r c : nat),
     gdal_Open (afd_fn rs) = Some raster ->
     has_shape raster r c -> has_shape (P_A_of P_A_500 P_A_30 rs) r c ->
     has_shape air r c -> has_shape snow r c -> has_shape p r c ->
     has_shape q r c -> has_shape w r c -> has_shape d r c ->
     exists s : @self R,
       init P_A_500 P_A_30 gdal_Open air snow p q w d rs = Ok s /\
       forall i j, (i < r)%nat -> (j < c)%nat ->
         cell (F_c s) i j = 0%R -> cell (atm_emissivity s) i j <> 0%R ->
         cell (weighted_emissivity s) i j = cell (atm_emissivity s) i j /\
         cell (CDLW s) i j = cell d i j).
Proof.
  split.
  - intros m P_A_500 P_A_30 gdal_Open air snow p q w d rs raster r c.
    apply zero_canopy_float64.
  - intros P_A_500 P_A_30 gdal_Open air snow p q w d rs raster r c.
    apply zero_canopy_exact.
Qed.
End ZeroCanopy.

(** ** The two identities of exact arithmetic, as the program computes them *)

Section ConcreteFloat64.
Import PrimFloat.
Import snow17.
#[local] Set Warnings "-inexact-float".

(** The powers of the library used here are the nearest floats. *)
Lemma series_pow_near :
  near (c_pow series_libm 278.16 4) 5986578900.657809 /\
  near (c_pow series_libm 10 (-8)) 1e-08.
Proof. split; right; left; vm_compute; reflexivity. Qed.

(** C4, counterexample.  In float64, one cell, no canopy ([F_c] is 0 and
    [atm_emissivity] is not), [air_tmp] 5 and [dlw] 250: CDLW is
    250.00000000000003, not the input 250. *)
Lemma C4_CDLW_is_not_dlw_in_float64 :
  exists s : @self float,
    @init float (float64 series_libm) (uniform64 1 1 800) (uniform64 1 1 900)
      (one_raster64 (afd_fn 500) (uniform64 1 1 0))
      (uniform64 1 1 5) (uniform64 1 1 0) (uniform64 1 1 87000)
      (uniform64 1 1 0.003) (uniform64 1 1 2) (uniform64 1 1 250) 500 = Ok s /\
    cell (F_c s) 0 0 = 0%float /\
    (cell (atm_emissivity s) 0 0 =? 0)%float = false /\
    cell (dlw s) 0 0 = 250%float /\
    cell (CDLW s) 0 0 = 250.00000000000003%float /\
    (cell (CDLW s) 0 0 =? cell (dlw s) 0 0)%float = false /\
    cell (CDLW s) 0 0 <> cell (dlw s) 0 0.
Proof.
  destruct series_pow_near as [H4 H8].
  destruct (@float64_CDLW_at_250 series_libm H4 H8) as (s & E & HF & He & Hd & HC).
  exists s. split; [exact E |]. split; [exact HF |]. split; [exact He |].
  split; [exact Hd |]. split; [exact HC |].
  rewrite HC, Hd. split; [reflexivity |].
  intros Heq. apply (f_equal (fun x => (x =? 250)%float)) in Heq.
  vm_compute in Heq. discriminate Heq.
Qed.

Lemma C4_zero_canopy_emissivity_and_dlw_witness :
  (exists s : @self float,
     @init float (float64 series_libm) (uniform64 1 1 800) (uniform64 1 1 900)
       (one_raster64 (afd_fn 500) (uniform64 1 1 0))
       (uniform64 1 1 5) (uniform64 1 1 0) (uniform64 1 1 87000)
       (uniform64 1 1 0.003) (uniform64 1 1 2) (uniform64 1 1 250) 500 = Ok s /\
     (cell (F_c s) 0 0 =? 0)%float = true /\
     (cell (atm_emissivity s) 0 0 =? 0)%float = false /\
     cell (weighted_emissivity s) 0 0 = cell (atm_emissivity s) 0 0) /\
  (exists s : @self R,
     init (uniform 1 1 800) (uniform 1 1 900)
       (one_raster (afd_fn 500) (uniform 1 1 0))
       (uniform 1 1 5) (uniform 1 1 0) (uniform 1 1 87000) (uniform 1 1 0.003)
       (uniform 1 1 2) (uniform 1 1 250) 500 = Ok s /\
     cell (F_c s) 0 0 = 0%R /\
     cell (atm_emissivity s) 0 0 <> 0%R /\
     cell (weighted_emissivity s) 0 0 = cell (atm_emissivity s) 0 0 /\
     cell (CDLW s) 0 0 = cell (uniform 1 1 250) 0 0).
Proof.
  destruct C4_zero_canopy_emissivity_and_dlw as [Hfloat Hreal]. split.
  - destruct (Hfloat series_libm (uniform64 1 1 800) (uniform64 1 1 900)
                (one_raster64 (afd_fn 500) (uniform64 1 1 0))
                (uniform64 1 1 5) (uniform64 1 1 0) (uniform64 1 1 87000)
                (uniform64 1 1 0.003) (uniform64 1 1 2) (uniform64 1 1 250) 500%Z
                (uniform64 1 1 0) 1%nat 1%nat
                ltac:(reflexivity) ltac:(split; reflexivity) ltac:(split; reflexivity)
                ltac:(split; reflexivity) ltac:(split; reflexivity)
                ltac:(split; reflexivity) ltac:(split; reflexivity)
                ltac:(split; reflexivity) ltac:(split; reflexivity))
      as (s & E & Hcells).
    destruct (@init_evaluated float (float64 series_libm)
                (uniform64 1 1 800) (uniform64 1 1 900)
                (one_raster64 (afd_fn 500) (uniform64 1 1 0))
                (uniform64 1 1 5) (uniform64 1 1 0) (uniform64 1 1 87000)
                (uniform64 1 1 0.003) (uniform64 1 1 2) (uniform64 1 1 250) 500
                (uniform64 1 1 0) 1 1)
      as (s' & E' & St & Ev); try (split; reflexivity); try reflexivity.
    assert (Hs : s' = s) by congruence. subst s'.
    destruct St as (Ea & _ & _ & _ & _ & Ed & _).
    assert (HF : (cell (F_c s) 0 0 =? 0)%float = true).
    { rewrite (is_grid_cell (ev_F_c Ev)) by lia. vm_compute. reflexivity. }
    assert (He : (cell (atm_emissivity s) 0 0 =? 0)%float = false).
    { rewrite (is_grid_cell (ev_atm Ev)) by lia. rewrite Ed, Ea.
      vm_compute. reflexivity. }
    exists s. split; [exact E |]. split; [exact HF |]. split; [exact He |].
    exact (Hcells 0%nat 0%nat ltac:(lia) ltac:(lia) HF He).
  - destruct (Hreal (uniform 1 1 800) (uniform 1 1 900)
                (one_raster (afd_fn 500) (uniform 1 1 0))
                (uniform 1 1 5) (uniform 1 1 0) (uniform 1 1 87000)
                (uniform 1 1 0.003) (uniform 1 1 2) (uniform 1 1 250) 500%Z
                (uniform 1 1 0) 1%nat 1%nat
                ltac:(concrete) ltac:(concrete) ltac:(concrete) ltac:(concrete)
                ltac:(concrete) ltac:(concrete) ltac:(concrete) ltac:(concrete)
                ltac:(concrete))
      as (s & E & Hcells).
    destruct (@init_evaluated R _ (uniform 1 1 800) (uniform 1 1 900)
                (one_raster (afd_fn 500) (uniform 1 1 0))
                (uniform 1 1 5) (uniform 1 1 0) (uniform 1 1 87000)
                (uniform 1 1 0.003) (uniform 1 1 2) (uniform 1 1 250) 500
                (uniform 1 1 0) 1 1)
      as (s' & E' & St & Ev); try concrete.
    assert (Hs : s' = s) by congruence. subst s'. stored St.
    assert (HF : cell (F_c s) 0 0 = 0%R).
    { rewrite (is_grid_cell (ev_F_c Ev)) by lia. cbn. unfold Q2R; cbn. lra. }
    assert (He : cell (atm_emissivity s) 0 0 <> 0%R).
    { rewrite (is_grid_cell (ev_atm Ev)) by lia. rewrite Ed, Ea.
      apply atm_emissivity_at_nonzero; cbn; unfold Q2R; cbn; lra. }
    exists s. split; [exact E |]. split; [exact HF |]. split; [exact He |].
    exact (Hcells 0%nat 0%nat ltac:(lia) ltac:(lia) HF He).
Defined.

(** C8, counterexample.  In float64, one cell, wind 0.8: the evaluation at
    [air_tmp] -40 and the evaluation at [air_tmp] -34, all other inputs
    the same and [air_tmp] not zero, compute two different zeta. *)
Lemma C8_zeta_differs_in_float64 :
  exists s1 s2 : @self float,
    @init float (float64 series_libm) (uniform64 1 1 800) (uniform64 1 1 900)
      (one_raster64 (afd_fn 500) (uniform64 1 1 0))
      (uniform64 1 1 (-40)) (uniform64 1 1 0) (uniform64 1 1 87000)
      (uniform64 1 1 0.003) (uniform64 1 1 0.8) (uniform64 1 1 250) 500 = Ok s1 /\
    @init float (float64 series_libm) (uniform64 1 1 800) (uniform64 1 1 900)
      (one_raster64 (afd_fn 500) (uniform64 1 1 0))
      (uniform64 1 1 (-34)) (uniform64 1 1 0) (uniform64 1 1 87000)
      (uniform64 1 1 0.003) (uniform64 1 1 0.8) (uniform64 1 1 250) 500 = Ok s2 /\
    cell (zeta s1) 0 0 = 0.11864445424542629%float /\
    cell (zeta s2) 0 0 = 0.11864445424542626%float /\
    (cell (zeta s1) 0 0 =? cell (zeta s2) 0 0)%float = false /\
    cell (zeta s1) 0 0 <> cell (zeta s2) 0 0.
Proof.
  destruct (float64_zeta_two_air_tmp series_libm) as (s1 & s2 & E1 & E2 & H1 & H2).
  exists s1, s2. split; [exact E1 |]. split; [exact E2 |].
  split; [exact H1 |]. split; [exact H2 |].
  rewrite H1, H2. split; [reflexivity |].
  intros Heq. apply (f_equal (fun x => (x =? 0.11864445424542626)%float)) in Heq.
  vm_compute in Heq. discriminate Heq.
Qed.
End ConcreteFloat64.
